(** * SQL table resource: statement builder, diff engine and validators

    A shallow embedding of [catalog/resource_sql_table.go].  Go strings are
    byte sequences and are modelled by [string] (a list of 8-bit
    characters); Go maps by stdpp's [gmap], a [nil] map or slice by [None];
    a run-time panic by the [Panic] outcome of the [go] monad; the
    unspecified iteration order of [range] over a map by a permutation that
    the run time chooses at every [range] statement. *)

From Stdlib Require Import Ascii String.
From stdpp Require Import base option list gmap strings fin_maps.

Local Open Scope string_scope.
Local Open Scope list_scope.
Local Open Scope stdpp_scope.

(** ** Outcomes of Go code *)

(** A call either returns a value or panics. *)
Inductive go (A : Type) : Type :=
| Ok (a : A)
| Panic (msg : string).
Arguments Ok {A} a.
Arguments Panic {A} msg.

#[global] Instance go_ret : MRet go := fun A a => Ok a.
#[global] Instance go_bind : MBind go := fun A B f m =>
  match m with
  | Ok a => f a
  | Panic msg => Panic msg
  end.

(** The predeclared [error] interface: [nil] or an error carrying a message. *)
Definition error : Type := option string.
Definition Errorf (msg : string) : error := Some msg.

(** [s[i]] on a slice: out of range is a run-time panic. *)
Definition index {A : Type} (s : list A) (i : nat) : go A :=
  match s !! i with
  | Some a => Ok a
  | None => Panic "index out of range"
  end.

(** ** The [strings] package *)

Definition newline : string := String "010"%char EmptyString.

(** [strings.Join]. *)
Fixpoint Join (elems : list string) (sep : string) : string :=
  match elems with
  | [] => ""
  | [e] => e
  | e :: rest => e +:+ sep +:+ Join rest sep
  end.

(** The scan of [strings.ReplaceAll] for a non-empty pattern: leftmost
    occurrences, never overlapping.  [skip] counts the bytes of a matched
    occurrence that are still to be passed over. *)
Fixpoint replace_from (old new : string) (skip : nat) (s : string) : string :=
  match s with
  | EmptyString => EmptyString
  | String c rest =>
      match skip with
      | S k => replace_from old new k rest
      | O =>
          if String.prefix old s
          then new +:+ replace_from old new (pred (String.length old)) rest
          else String c (replace_from old new 0 rest)
      end
  end.

(** With an empty pattern Go inserts [new] before every UTF-8 sequence and
    at the end; the byte-wise version below agrees with it on ASCII text.
    Neither call in this file passes an empty pattern. *)
Fixpoint intersperse_bytes (new s : string) : string :=
  match s with
  | EmptyString => new
  | String c rest => new +:+ String c (intersperse_bytes new rest)
  end.

Definition ReplaceAll (s old new : string) : string :=
  match old with
  | EmptyString => intersperse_bytes new s
  | String _ _ => replace_from old new 0 s
  end.

(** ASCII letters are folded by adding 32 to the upper-case ones. *)
Definition lower_byte (c : ascii) : ascii :=
  let n := nat_of_ascii c in
  if (65 <=? n)%nat && (n <=? 90)%nat then ascii_of_nat (n + 32) else c.

Fixpoint lower_ascii (s : string) : string :=
  match s with
  | EmptyString => EmptyString
  | String c rest => String (lower_byte c) (lower_ascii rest)
  end.

Fixpoint is_ascii (s : string) : bool :=
  match s with
  | EmptyString => true
  | String c rest => (nat_of_ascii c <? 128)%nat && is_ascii rest
  end.

(** ** What the run time decides *)

(** The [range] statements over a map, one per place in the source. *)
Inductive range_site : Set :=
| RangeProperties      (* serializeProperties: for key, value := range ti.Properties *)
| RangeOptions         (* serializeOptions: for key, value := range ti.Options *)
| RangeRemovedProps    (* diff: for key := range oldti.Properties *)
| RangeOldColumns      (* addOrRemoveColumnStatements: range nameToOldColumn *)
| RangeOldColsNameToMap (* assertNoColumnMembershipAndFieldValueUpdate *)
| RangeOldProps.       (* CustomizeDiff: for key := range oldProps *)

(** [map_range] is the order in which one [range] statement visits the
    entries of a map: any enumeration of the entries.  [ToLower] is
    [strings.ToLower], which is the ASCII folding on ASCII text (and a
    Unicode mapping elsewhere, which is left open). *)
Class GoRuntime : Type := {
  map_range : forall {V : Type}, range_site -> gmap string V -> list (string * V);
  map_range_perm : forall (V : Type) (site : range_site) (m : gmap string V),
      map_range site m ≡ₚ map_to_list m;
  ToLower : string -> string;
  ToLower_ascii : forall s, is_ascii s = true -> ToLower s = lower_ascii s
}.

(** The run time that visits maps in key order of the representation and
    folds bytes only. *)
#[global] Instance reference_runtime : GoRuntime := {|
  map_range := fun V _ m => map_to_list m;
  map_range_perm := fun V _ m => Permutation_refl (map_to_list m);
  ToLower := lower_ascii;
  ToLower_ascii := fun s _ => eq_refl
|}.

(** A [nil] map reads like an empty one. *)
Definition entries {V : Type} (m : option (gmap string V)) : gmap string V :=
  default ∅ m.

(** [len] of a map. *)
Definition map_len {V : Type} (m : option (gmap string V)) : nat :=
  size (entries m).

(** ** The entity model *)

Record SqlColumnInfo : Type := {
  ColName : string;
  ColType : string;
  ColComment : string;
  ColNullable : bool
}.

Record SqlTableInfo : Type := {
  Name : string;
  CatalogName : string;
  SchemaName : string;
  TableType : string;
  DataSourceFormat : string;
  ColumnInfos : list SqlColumnInfo;
  Partitions : list string;
  ClusterKeys : option (list string);
  StorageLocation : string;
  StorageCredentialName : string;
  ViewDefinition : string;
  Comment : string;
  Properties : option (gmap string string);
  Options : option (gmap string string);
  ClusterID : string;
  WarehouseID : string;
  Owner : string
}.

#[global] Instance SqlColumnInfo_eq_dec : EqDecision SqlColumnInfo.
Proof. solve_decision. Defined.

(** [len] and the elements of a slice that may be [nil]. *)
Definition elems {A : Type} (s : option (list A)) : list A := default [] s.

Definition FullName (ti : SqlTableInfo) : string :=
  CatalogName ti +:+ "." +:+ SchemaName ti +:+ "." +:+ Name ti.

Definition SQLFullName (ti : SqlTableInfo) : string :=
  "`" +:+ CatalogName ti +:+ "`.`" +:+ SchemaName ti +:+ "`.`" +:+ Name ti +:+ "`".

Definition parseComment (s : string) : string :=
  ReplaceAll (ReplaceAll s "\'" "'") "'" "\'".

(** ** The managed-property classifier *)

Definition managedProps : gmap string bool :=
  list_to_map [
    ("clusteringColumns", true);
    ("delta.lastCommitTimestamp", true);
    ("delta.lastUpdateVersion", true);
    ("delta.minReaderVersion", true);
    ("delta.minWriterVersion", true);
    ("delta.columnMapping.maxColumnId", true);
    ("delta.enableDeletionVectors", true);
    ("delta.enableRowTracking", true);
    ("delta.feature.clustering", true);
    ("delta.feature.changeDataFeed", true);
    ("delta.feature.deletionVectors", true);
    ("delta.feature.domainMetadata", true);
    ("delta.feature.liquid", true);
    ("delta.feature.rowTracking", true);
    ("delta.feature.v2Checkpoint", true);
    ("delta.feature.timestampNtz", true);
    ("delta.liquid.clusteringColumns", true);
    ("delta.rowTracking.materializedRowCommitVersionColumnName", true);
    ("delta.rowTracking.materializedRowIdColumnName", true);
    ("delta.checkpoint.writeStatsAsJson", true);
    ("delta.checkpoint.writeStatsAsStruct", true);
    ("delta.checkpointPolicy", true);
    ("view.catalogAndNamespace.numParts", true);
    ("view.catalogAndNamespace.part.0", true);
    ("view.catalogAndNamespace.part.1", true);
    ("view.query.out.col.0", true);
    ("view.query.out.numCols", true);
    ("view.referredTempFunctionsNames", true);
    ("view.referredTempViewNames", true);
    ("view.sqlConfig.spark.sql.hive.convertCTAS", true);
    ("view.sqlConfig.spark.sql.legacy.createHiveTableByDefault", true);
    ("view.sqlConfig.spark.sql.parquet.compression.codec", true);
    ("view.sqlConfig.spark.sql.session.timeZone", true);
    ("view.sqlConfig.spark.sql.sources.commitProtocolClass", true);
    ("view.sqlConfig.spark.sql.sources.default", true);
    ("view.sqlConfig.spark.sql.streaming.stopTimeout", true)
  ].

(** Reading a missing key of a [map[string]bool] gives [false]. *)
Definition sqlTableIsManagedProperty (key : string) : bool :=
  default false (managedProps !! key).
Arguments sqlTableIsManagedProperty : simpl never.

(** ** Serialisation *)

(** Wrapping the column name with backticks. *)
Definition getWrappedColumnName (ci : SqlColumnInfo) : string :=
  "`" +:+ ColName ci +:+ "`".

Definition serializeColumnInfo (col : SqlColumnInfo) : string :=
  let notNull := if negb (ColNullable col) then " NOT NULL" else "" in
  let comment :=
    if decide (ColComment col = "") then ""
    else " COMMENT '" +:+ parseComment (ColComment col) +:+ "'" in
  getWrappedColumnName col +:+ " " +:+ ColType col +:+ notNull +:+ comment.

Definition serializeColumnInfos (ti : SqlTableInfo) : string :=
  Join (serializeColumnInfo <$> ColumnInfos ti) ", ".

(** The loop body shared by [serializeProperties] and [serializeOptions]:
    append ['key'='value'] unless the key is managed. *)
Definition appendUnmanaged (acc : list string) (kv : string * string) : list string :=
  if negb (sqlTableIsManagedProperty kv.1)
  then acc ++ ["'" +:+ kv.1 +:+ "'='" +:+ kv.2 +:+ "'"]
  else acc.

Section Statements.
Context `{GoRuntime}.

Definition serializeProperties (ti : SqlTableInfo) : string :=
  let propsMap :=
    foldl appendUnmanaged [] (map_range RangeProperties (entries (Properties ti))) in
  Join propsMap ", ".

Definition serializeOptions (ti : SqlTableInfo) : string :=
  let optionsMap :=
    foldl appendUnmanaged [] (map_range RangeOptions (entries (Options ti))) in
  Join optionsMap ", ".

Definition buildLocationStatement (ti : SqlTableInfo) : string :=
  let statements := ["LOCATION '" +:+ StorageLocation ti +:+ "'"] in
  let statements :=
    if decide (StorageCredentialName ti = "") then statements
    else statements ++ [" WITH (CREDENTIAL `" +:+ StorageCredentialName ti +:+ "`)"] in
  Join statements "".

Definition getTableTypeString (ti : SqlTableInfo) : string :=
  if decide (TableType ti = "VIEW") then "VIEW" else "TABLE".

Definition buildTableCreateStatement (ti : SqlTableInfo) : string :=
  let isView := bool_decide (TableType ti = "VIEW") in
  let externalFragment :=
    if decide (TableType ti = "EXTERNAL") then "EXTERNAL " else "" in
  let createType := getTableTypeString ti in
  let statements :=
    ["CREATE " +:+ externalFragment +:+ createType +:+ " " +:+ SQLFullName ti] in
  let statements :=
    if (0 <? length (ColumnInfos ti))%nat
    then statements ++ [" (" +:+ serializeColumnInfos ti +:+ ")"]
    else statements in
  let statements :=
    if negb isView
    then if decide (DataSourceFormat ti = "") then statements
         else statements ++ [newline +:+ "USING " +:+ DataSourceFormat ti]
    else statements in
  let statements :=
    if (0 <? length (Partitions ti))%nat
    then statements ++ [newline +:+ "PARTITIONED BY (" +:+ Join (Partitions ti) ", " +:+ ")"]
    else statements in
  let statements :=
    if (0 <? length (elems (ClusterKeys ti)))%nat
    then statements ++ [newline +:+ "CLUSTER BY (" +:+ Join (elems (ClusterKeys ti)) ", " +:+ ")"]
    else statements in
  let statements :=
    if decide (Comment ti = "") then statements
    else statements ++ [newline +:+ "COMMENT '" +:+ parseComment (Comment ti) +:+ "'"] in
  let statements :=
    if (0 <? map_len (Properties ti))%nat
    then statements ++ [newline +:+ "TBLPROPERTIES (" +:+ serializeProperties ti +:+ ")"]
    else statements in
  let statements :=
    if (0 <? map_len (Options ti))%nat
    then statements ++ [newline +:+ "OPTIONS (" +:+ serializeOptions ti +:+ ")"]
    else statements in
  let statements :=
    if negb isView
    then if decide (StorageLocation ti = "") then statements
         else statements ++ [newline +:+ buildLocationStatement ti]
    else statements ++ [newline +:+ "AS " +:+ ViewDefinition ti] in
  let statements := statements ++ [";"] in
  Join statements "".

End Statements.

(** ** The diff engine *)

(** [reflect.DeepEqual] on two values of one type that holds no pointers,
    functions or floats: structural equality, a [nil] map or slice being
    different from an empty one. *)
Definition DeepEqual {A : Type} `{EqDecision A} (x y : A) : bool :=
  bool_decide (x = y).

(** [nameToOldColumn] and [nameToNewColumn]: a later column of the same
    name overwrites an earlier one. *)
Definition nameToColumn (cols : list SqlColumnInfo) : gmap string SqlColumnInfo :=
  foldl (fun m ci => <[ColName ci := ci]> m) ∅ cols.

(** The body of the first loop of [addOrRemoveColumnStatements]. *)
Definition appendRemoved (nameToNewColumn : gmap string SqlColumnInfo)
    (acc : list string) (entry : string * SqlColumnInfo) : list string :=
  match nameToNewColumn !! entry.1 with
  | None => acc ++ [getWrappedColumnName entry.2]
  | Some _ => acc
  end.

(** The second loop of [addOrRemoveColumnStatements], from index [i] on. *)
Fixpoint addColumnsFrom (ti : SqlTableInfo) (nameToOldColumn : gmap string SqlColumnInfo)
    (typestring : string) (i : nat) (rest : list SqlColumnInfo)
    (statements : list string) : go (list string) :=
  match rest with
  | [] => Ok statements
  | newCi :: rest' =>
      statements' ←
        match nameToOldColumn !! ColName newCi with
        | None =>
            let newCiStatement := serializeColumnInfo newCi in
            if (i =? 0)%nat
            then Ok (statements ++
                       ["ALTER " +:+ typestring +:+ " " +:+ SQLFullName ti +:+
                        " ADD COLUMN " +:+ newCiStatement +:+ " FIRST"])
            else
              before ← index (ColumnInfos ti) (i - 1);
              Ok (statements ++
                    ["ALTER " +:+ typestring +:+ " " +:+ SQLFullName ti +:+
                     " ADD COLUMN " +:+ newCiStatement +:+ " AFTER " +:+ ColName before])
        | Some _ => Ok statements
        end;
      addColumnsFrom ti nameToOldColumn typestring (S i) rest' statements'
  end.

(** The body of the loop of [alterExistingColumnStatements] at one index. *)
Definition alterColumnAt (ti : SqlTableInfo) (typestring : string)
    (ci oldCi : SqlColumnInfo) (statements : list string) : list string :=
  let statements :=
    if decide (ColName ci ≠ ColName oldCi)
    then statements ++
           ["ALTER " +:+ typestring +:+ " " +:+ SQLFullName ti +:+ " RENAME COLUMN " +:+
            getWrappedColumnName oldCi +:+ " to " +:+ getWrappedColumnName ci]
    else statements in
  let statements :=
    if decide (ColComment ci ≠ ColComment oldCi)
    then statements ++
           ["ALTER " +:+ typestring +:+ " " +:+ SQLFullName ti +:+ " ALTER COLUMN " +:+
            getWrappedColumnName ci +:+ " COMMENT '" +:+ parseComment (ColComment ci) +:+ "'"]
    else statements in
  if decide (ColNullable ci ≠ ColNullable oldCi)
  then
    let keyWord := if ColNullable ci then "DROP" else "SET" in
    statements ++
      ["ALTER " +:+ typestring +:+ " " +:+ SQLFullName ti +:+ " ALTER COLUMN " +:+
       getWrappedColumnName ci +:+ " " +:+ keyWord +:+ " NOT NULL"]
  else statements.

Fixpoint alterColumnsFrom (ti oldti : SqlTableInfo) (typestring : string) (i : nat)
    (rest : list SqlColumnInfo) (statements : list string) : go (list string) :=
  match rest with
  | [] => Ok statements
  | ci :: rest' =>
      oldCi ← index (ColumnInfos oldti) i;
      alterColumnsFrom ti oldti typestring (S i) rest'
        (alterColumnAt ti typestring ci oldCi statements)
  end.

(** The body of the loop of [diff] that collects the removed properties. *)
Definition appendRemovedProp (props : gmap string string)
    (acc : list string) (entry : string * string) : list string :=
  match props !! entry.1 with
  | None => acc ++ [entry.1]
  | Some _ => acc
  end.

Section Diff.
Context `{GoRuntime}.

Definition addOrRemoveColumnStatements (ti oldti : SqlTableInfo)
    (statements : list string) (typestring : string) : go (list string) :=
  let nameToOldColumn := nameToColumn (ColumnInfos oldti) in
  let nameToNewColumn := nameToColumn (ColumnInfos ti) in
  let removeColumnStatements :=
    foldl (appendRemoved nameToNewColumn) [] (map_range RangeOldColumns nameToOldColumn) in
  let statements :=
    if (0 <? length removeColumnStatements)%nat
    then
      let removeColumnStatementsStr := Join removeColumnStatements ", " in
      statements ++
        ["ALTER " +:+ typestring +:+ " " +:+ SQLFullName ti +:+
         " DROP COLUMN IF EXISTS (" +:+ removeColumnStatementsStr +:+ ")"]
    else statements in
  addColumnsFrom ti nameToOldColumn typestring 0 (ColumnInfos ti) statements.

Definition alterExistingColumnStatements (ti oldti : SqlTableInfo)
    (statements : list string) (typestring : string) : go (list string) :=
  alterColumnsFrom ti oldti typestring 0 (ColumnInfos ti) statements.

Definition getStatementsForColumnDiffs (ti oldti : SqlTableInfo)
    (statements : list string) (typestring : string) : go (list string) :=
  if decide (length (ColumnInfos ti) ≠ length (ColumnInfos oldti))
  then addOrRemoveColumnStatements ti oldti statements typestring
  else alterExistingColumnStatements ti oldti statements typestring.

(** The slice [removeProps] that [diff] builds when the property maps differ. *)
Definition removeProps (ti oldti : SqlTableInfo) : list string :=
  foldl (appendRemovedProp (entries (Properties ti))) []
    (map_range RangeRemovedProps (entries (Properties oldti))).

Definition diff (ti oldti : SqlTableInfo) : go (list string * error) :=
  let statements : list string := [] in
  let typestring := getTableTypeString ti in
  let statements :=
    if decide (TableType ti = "VIEW")
    then
      (* View only attributes *)
      if decide (ViewDefinition ti ≠ ViewDefinition oldti)
      then statements ++ ["ALTER VIEW " +:+ SQLFullName ti +:+ " AS " +:+ ViewDefinition ti]
      else statements
    else
      (* Table only attributes *)
      let statements :=
        if decide (StorageLocation ti ≠ StorageLocation oldti)
        then statements ++
               ["ALTER TABLE " +:+ SQLFullName ti +:+ " SET " +:+ buildLocationStatement ti]
        else statements in
      if negb (DeepEqual (ClusterKeys ti) (ClusterKeys oldti))
      then statements ++
             ["ALTER TABLE " +:+ SQLFullName ti +:+ " CLUSTER BY (" +:+
              Join (elems (ClusterKeys ti)) ", " +:+ ")"]
      else statements in
  (* Attributes common to both views and tables *)
  let statements :=
    if decide (Comment ti ≠ Comment oldti)
    then statements ++
           ["COMMENT ON " +:+ typestring +:+ " " +:+ SQLFullName ti +:+ " IS '" +:+
            parseComment (Comment ti) +:+ "'"]
    else statements in
  let statements :=
    if negb (DeepEqual (Properties ti) (Properties oldti))
    then
      (* First handle removal of properties *)
      let removeProps := removeProps ti oldti in
      let statements :=
        if (0 <? length removeProps)%nat
        then statements ++
               ["ALTER " +:+ typestring +:+ " " +:+ SQLFullName ti +:+
                " UNSET TBLPROPERTIES IF EXISTS (" +:+ Join removeProps "," +:+ ")"]
        else statements in
      (* Next handle property changes and additions *)
      statements ++
        ["ALTER " +:+ typestring +:+ " " +:+ SQLFullName ti +:+
         " SET TBLPROPERTIES (" +:+ serializeProperties ti +:+ ")"]
    else statements in
  statements ← getStatementsForColumnDiffs ti oldti statements typestring;
  Ok (statements, None).

(** *** Applying the statements *)

Section Update.
(** [applySql] hands one statement to the warehouse or the cluster; what it
    does there is outside this file, so it is a parameter: a function of
    the statement and of the state of the world. *)
Variable World : Type.
Variable applySql : SqlTableInfo -> string -> World -> error * World.

Fixpoint applyAll (ti : SqlTableInfo) (statements : list string) (w : World) : error * World :=
  match statements with
  | [] => (None, w)
  | statement :: rest =>
      match applySql ti statement w with
      | (Some err, w') => (Some err, w')
      | (None, w') => applyAll ti rest w'
      end
  end.

Definition updateTable (ti oldti : SqlTableInfo) (w : World) : go (error * World) :=
  r ← diff ti oldti;
  match r.2 with
  | Some err => Ok (Some err, w)
  | None => Ok (applyAll ti r.1 w)
  end.

Definition createTable (ti : SqlTableInfo) (w : World) : error * World :=
  applySql ti (buildTableCreateStatement ti) w.

End Update.
End Diff.

(** ** Pre-flight validators *)

(** A value of type [interface{}] as the state of a column block holds it:
    [nil], a string or a bool. *)
Inductive any : Type :=
| AnyNil
| AnyString (s : string)
| AnyBool (b : bool).

#[global] Instance any_eq_dec : EqDecision any.
Proof. solve_decision. Defined.

(** [m[k]] on a [map[string]interface{}]: a missing key reads as [nil]. *)
Definition lookup_any (m : gmap string any) (k : string) : any :=
  default AnyNil (m !! k).

(** The type assertion [v.(string)]. *)
Definition assertString (v : any) : go string :=
  match v with
  | AnyString s => Ok s
  | _ => Panic "interface conversion: interface {} is not string"
  end.

Definition columnTypeAliases : gmap string string :=
  list_to_map [
    ("integer", "int");
    ("long", "bigint");
    ("real", "float");
    ("short", "smallint");
    ("byte", "tinyint");
    ("decimal", "decimal(10,0)");
    ("dec", "decimal(10,0)");
    ("numeric", "decimal(10,0)")
  ].

Section Validators.
Context `{GoRuntime}.

Definition getColumnType (columnType : string) : string :=
  let caseInsensitiveColumnType := ToLower columnType in
  match columnTypeAliases !! caseInsensitiveColumnType with
  | Some alias => alias
  | None => caseInsensitiveColumnType
  end.

(** The loop of [assertNoColumnTypeDiff] from index [i] on. *)
Fixpoint assertNoColumnTypeDiffFrom (i : nat) (oldCols : list (gmap string any))
    (newColumnInfos : list SqlColumnInfo) : go error :=
  match oldCols with
  | [] => Ok None
  | oldColMap :: rest =>
      oldType ← assertString (lookup_any oldColMap "type");
      newCol ← index newColumnInfos i;
      if decide (getColumnType oldType ≠ getColumnType (ColType newCol))
      then Ok (Errorf "changing the 'type' of an existing column is not supported")
      else assertNoColumnTypeDiffFrom (S i) rest newColumnInfos
  end.

Definition assertNoColumnTypeDiff (oldCols : list (gmap string any))
    (newColumnInfos : list SqlColumnInfo) : go error :=
  assertNoColumnTypeDiffFrom 0 oldCols newColumnInfos.

(** The first loop of [assertNoColumnMembershipAndFieldValueUpdate]. *)
Fixpoint oldColsByName (oldCols : list (gmap string any))
    (oldColsNameToMap : gmap string (gmap string any)) : go (gmap string (gmap string any)) :=
  match oldCols with
  | [] => Ok oldColsNameToMap
  | oldColMap :: rest =>
      name ← assertString (lookup_any oldColMap "name");
      oldColsByName rest (<[name := oldColMap]> oldColsNameToMap)
  end.

(** Its third loop, over the entries of [oldColsNameToMap] in the order the
    run time visits them. *)
Fixpoint assertSharedUnchanged (visit : list (string * gmap string any))
    (newColsNameToMap : gmap string SqlColumnInfo) : go error :=
  match visit with
  | [] => Ok None
  | (name, oldColMap) :: rest =>
      match newColsNameToMap !! name with
      | Some newCol =>
          oldType ← assertString (lookup_any oldColMap "type");
          if bool_decide (getColumnType oldType ≠ getColumnType (ColType newCol))
             || bool_decide (lookup_any oldColMap "nullable" ≠ AnyBool (ColNullable newCol))
             || bool_decide (lookup_any oldColMap "comment" ≠ AnyString (ColComment newCol))
          then Ok (Errorf "detected changes in both number of columns and existing column field values, please do not change number of columns and update column values at the same time")
          else assertSharedUnchanged rest newColsNameToMap
      | None => assertSharedUnchanged rest newColsNameToMap
      end
  end.

(** This function will throw if column addition or removal is happening
    together with column info field values. *)
Definition assertNoColumnMembershipAndFieldValueUpdate (oldCols : list (gmap string any))
    (newColumnInfos : list SqlColumnInfo) : go error :=
  oldColsNameToMap ← oldColsByName oldCols ∅;
  let newColsNameToMap := nameToColumn newColumnInfos in
  assertSharedUnchanged (map_range RangeOldColsNameToMap oldColsNameToMap) newColsNameToMap.

(** [columnChangesCustomizeDiff], on the old value of the [column]
    attribute and the new table. *)
Definition columnChangesCustomizeDiff (oldCols : list (gmap string any))
    (newTable : SqlTableInfo) : go error :=
  let newColumnInfos := ColumnInfos newTable in
  if decide (length oldCols = length newColumnInfos)
  then assertNoColumnTypeDiff oldCols newColumnInfos
  else assertNoColumnMembershipAndFieldValueUpdate oldCols newColumnInfos.

End Validators.
Arguments getColumnType : simpl never.

(** The block that the state holds for a column. *)
Definition columnBlock (ci : SqlColumnInfo) : gmap string any :=
  <["name" := AnyString (ColName ci)]>
    (<["type" := AnyString (ColType ci)]>
       (<["comment" := AnyString (ColComment ci)]>
          (<["nullable" := AnyBool (ColNullable ci)]> ∅))).

(** ** Completing the planned properties *)

(** [strings.HasPrefix]. *)
Definition HasPrefix (s p : string) : bool := String.prefix p s.

(** The body of the loop of [CustomizeDiff] over the old properties:
    [newProps] is updated in place.  [key] is a key of [oldProps], the map
    being ranged over, so [oldProps[key]] is always there. *)
Definition keepOldProperty {V : Type} (oldProps options : gmap string V)
    (newProps : gmap string V) (key : string) : gmap string V :=
  match newProps !! key with
  | Some _ => newProps
  | None =>
      (* options also gets exposed as properties *)
      let newProps :=
        match options !! key, oldProps !! key with
        | Some _, Some v => <[key := v]> newProps
        | _, _ => newProps
        end in
      (* some options are exposed as option.[...] properties *)
      if sqlTableIsManagedProperty key || HasPrefix key "option."
      then match oldProps !! key with
           | Some v => <[key := v]> newProps
           | None => newProps
           end
      else newProps
  end.

Section Customize.
Context `{GoRuntime}.

(** The [properties] branch of [CustomizeDiff]: the value that
    [d.SetNew("properties", newProps)] records. *)
Definition customizeDiffProperties {V : Type} (oldProps newProps options : gmap string V)
    : gmap string V :=
  foldl (keepOldProperty oldProps options) newProps
    ((map_range RangeOldProps oldProps).*1).

End Customize.

(** ** Notions used by the statements below *)

(** The two halves of [parseComment]. *)
Definition escape (s : string) : string := ReplaceAll s "'" "\'".
Definition unescape (s : string) : string := ReplaceAll s "\'" "'".

(** A table description with its column list replaced. *)
Definition withColumns (cols : list SqlColumnInfo) (ti : SqlTableInfo) : SqlTableInfo :=
  {| Name := Name ti; CatalogName := CatalogName ti; SchemaName := SchemaName ti;
     TableType := TableType ti; DataSourceFormat := DataSourceFormat ti;
     ColumnInfos := cols; Partitions := Partitions ti; ClusterKeys := ClusterKeys ti;
     StorageLocation := StorageLocation ti;
     StorageCredentialName := StorageCredentialName ti;
     ViewDefinition := ViewDefinition ti; Comment := Comment ti;
     Properties := Properties ti; Options := Options ti; ClusterID := ClusterID ti;
     WarehouseID := WarehouseID ti; Owner := Owner ti |}.

(** The column statements as the design describes them.  One [DROP COLUMN]
    statement for a non-empty list of dropped names: *)
Definition dropColumnStatements (ti : SqlTableInfo) (typestring : string)
    (dropped : list string) : list string :=
  match dropped with
  | [] => []
  | _ :: _ =>
      ["ALTER " +:+ typestring +:+ " " +:+ SQLFullName ti +:+ " DROP COLUMN IF EXISTS (" +:+
       Join ((fun n => "`" +:+ n +:+ "`") <$> dropped) ", " +:+ ")"]
  end.

(** the position clause of a column added at index [i] of the desired list: *)
Definition positionClause (ti : SqlTableInfo) (i : nat) : string :=
  match i with
  | O => " FIRST"
  | S j => " AFTER " +:+ default "" (ColName <$> ColumnInfos ti !! j)
  end.

(** and one [ADD COLUMN] statement per desired column whose name no
    previous column has, in the order of the desired list. *)
Definition addColumnStatements (ti oldti : SqlTableInfo) (typestring : string) : list string :=
  (fun ic : nat * SqlColumnInfo =>
     "ALTER " +:+ typestring +:+ " " +:+ SQLFullName ti +:+ " ADD COLUMN " +:+
     serializeColumnInfo ic.2 +:+ positionClause ti ic.1)
  <$> filter (fun ic : nat * SqlColumnInfo => ColName ic.2 ∉ ColName <$> ColumnInfos oldti)
        (imap pair (ColumnInfos ti)).

(** The alias table of the column types, entry by entry. *)
Definition aliasOf (t : string) : string :=
  if decide (t = "integer") then "int"
  else if decide (t = "long") then "bigint"
  else if decide (t = "real") then "float"
  else if decide (t = "short") then "smallint"
  else if decide (t = "byte") then "tinyint"
  else if decide (t = "decimal") then "decimal(10,0)"
  else if decide (t = "dec") then "decimal(10,0)"
  else if decide (t = "numeric") then "decimal(10,0)"
  else t.

(** Two columns of one name differ in an attribute that the validators
    compare. *)
Definition attributesDiffer `{GoRuntime} (o n : SqlColumnInfo) : Prop :=
  getColumnType (ColType o) ≠ getColumnType (ColType n)
  ∨ ColNullable o ≠ ColNullable n
  ∨ ColComment o ≠ ColComment n.

Definition typeChangeError : string :=
  "changing the 'type' of an existing column is not supported".

Definition mixedChangeError : string :=
  "detected changes in both number of columns and existing column field values, please do not change number of columns and update column values at the same time".

(** ** Sample descriptions *)

Definition sampleColumn (name type : string) : SqlColumnInfo :=
  {| ColName := name; ColType := type; ColComment := ""; ColNullable := true |}.

(** A managed Delta table [main.s.t]. *)
Definition sampleTable (cols : list SqlColumnInfo) (partitions : list string)
    (clusterKeys : option (list string))
    (properties options : option (gmap string string)) : SqlTableInfo :=
  {| Name := "t"; CatalogName := "main"; SchemaName := "s"; TableType := "MANAGED";
     DataSourceFormat := "DELTA"; ColumnInfos := cols; Partitions := partitions;
     ClusterKeys := clusterKeys; StorageLocation := ""; StorageCredentialName := "";
     ViewDefinition := ""; Comment := ""; Properties := properties; Options := options;
     ClusterID := ""; WarehouseID := ""; Owner := "" |}.

(** The [UNSET TBLPROPERTIES] statement of [diff] for a non-empty list of
    keys, and none for the empty list. *)
Definition unsetStatements (ti : SqlTableInfo) (keys : list string) : list string :=
  match keys with
  | [] => []
  | _ :: _ =>
      ["ALTER " +:+ getTableTypeString ti +:+ " " +:+ SQLFullName ti +:+
       " UNSET TBLPROPERTIES IF EXISTS (" +:+ Join keys "," +:+ ")"]
  end.

(** ** Further notions *)

(** Whether some quote of [s] is not preceded by a backslash;
    [afterBackslash] tells whether the byte before [s] is a backslash. *)
Fixpoint bareQuote (afterBackslash : bool) (s : string) : bool :=
  match s with
  | EmptyString => false
  | String c rest =>
      (if decide (c = "'"%char) then negb afterBackslash else false)
      || bareQuote (bool_decide (c = "\"%char)) rest
  end.

(** Whether [s] holds a quote at all. *)
Fixpoint hasQuote (s : string) : bool :=
  match s with
  | EmptyString => false
  | String c rest => bool_decide (c = "'"%char) || hasQuote rest
  end.

(** One entry of a [TBLPROPERTIES] or [OPTIONS] list. *)
Definition propertyPair (kv : string * string) : string :=
  "'" +:+ kv.1 +:+ "'='" +:+ kv.2 +:+ "'".

(** The fields that [buildTableCreateStatement] reads whatever the kind. *)
Definition createInputsAgree (ti ti' : SqlTableInfo) : Prop :=
  Name ti = Name ti' ∧ CatalogName ti = CatalogName ti'
  ∧ SchemaName ti = SchemaName ti' ∧ TableType ti = TableType ti'
  ∧ ColumnInfos ti = ColumnInfos ti' ∧ Partitions ti = Partitions ti'
  ∧ elems (ClusterKeys ti) = elems (ClusterKeys ti')
  ∧ Comment ti = Comment ti'
  ∧ entries (Properties ti) = entries (Properties ti')
  ∧ entries (Options ti) = entries (Options ti').

(** The fields of the desired description that [diff] reads, *)
Definition desiredInputsAgree (ti ti' : SqlTableInfo) : Prop :=
  Name ti = Name ti' ∧ CatalogName ti = CatalogName ti'
  ∧ SchemaName ti = SchemaName ti' ∧ TableType ti = TableType ti'
  ∧ ColumnInfos ti = ColumnInfos ti' ∧ ClusterKeys ti = ClusterKeys ti'
  ∧ StorageLocation ti = StorageLocation ti'
  ∧ StorageCredentialName ti = StorageCredentialName ti'
  ∧ ViewDefinition ti = ViewDefinition ti' ∧ Comment ti = Comment ti'
  ∧ Properties ti = Properties ti'.

(** and those of the previous one. *)
Definition previousInputsAgree (oldti oldti' : SqlTableInfo) : Prop :=
  ColumnInfos oldti = ColumnInfos oldti' ∧ ClusterKeys oldti = ClusterKeys oldti'
  ∧ StorageLocation oldti = StorageLocation oldti'
  ∧ ViewDefinition oldti = ViewDefinition oldti' ∧ Comment oldti = Comment oldti'
  ∧ Properties oldti = Properties oldti'.

(** Two columns at one position agree in what the positional path looks at. *)
Definition sameTrackedColumn (c o : SqlColumnInfo) : Prop :=
  ColName c = ColName o ∧ ColComment c = ColComment o ∧ ColNullable c = ColNullable o.

(** Nothing that [diff] tracks differs between the two descriptions. *)
Definition trackedEqual (ti oldti : SqlTableInfo) : Prop :=
  (if decide (TableType ti = "VIEW")
   then ViewDefinition ti = ViewDefinition oldti
   else StorageLocation ti = StorageLocation oldti ∧ ClusterKeys ti = ClusterKeys oldti)
  ∧ Comment ti = Comment oldti
  ∧ Properties ti = Properties oldti
  ∧ Forall2 sameTrackedColumn (ColumnInfos ti) (ColumnInfos oldti).

(** The value that the planned properties end up with for one key. *)
Definition plannedProperty {V : Type} (oldProps newProps options : gmap string V)
    (key : string) : option V :=
  match newProps !! key with
  | Some v => Some v
  | None =>
      if bool_decide (is_Some (options !! key))
         || sqlTableIsManagedProperty key || HasPrefix key "option."
      then oldProps !! key
      else None
  end.

(** A world that logs the statements it is handed, and an executor that
    fails on one of them. *)
Definition loggingExecutor (failing : string) (ti : SqlTableInfo) (statement : string)
    (log : list string) : error * list string :=
  if decide (statement = failing)
  then (Errorf ("cannot execute " +:+ statement), log ++ [statement])
  else (None, log ++ [statement]).

(** A statement list that starts with [head]; every step of the builder
    keeps it so. *)
Definition startsWith (head : string) (l : list string) : Prop :=
  ∃ rest, l = head :: rest.

(** The statement that changes the nullability of a column to that of [c]. *)
Definition nullabilityStatement (ti : SqlTableInfo) (typestring : string)
    (c : SqlColumnInfo) : string :=
  "ALTER " +:+ typestring +:+ " " +:+ SQLFullName ti +:+ " ALTER COLUMN " +:+
  getWrappedColumnName c +:+ " " +:+ (if ColNullable c then "DROP" else "SET") +:+
  " NOT NULL".

(** ** Further sample descriptions *)

(** A view [main.s.t] over a query. *)
Definition sampleView (format location query : string) : SqlTableInfo :=
  {| Name := "t"; CatalogName := "main"; SchemaName := "s"; TableType := "VIEW";
     DataSourceFormat := format; ColumnInfos := []; Partitions := [];
     ClusterKeys := None; StorageLocation := location; StorageCredentialName := "";
     ViewDefinition := query; Comment := ""; Properties := None; Options := None;
     ClusterID := ""; WarehouseID := ""; Owner := "" |}.

(** An external table [main.s.t] at a location, with a comment. *)
Definition sampleExternalTable (location comment : string) (cols : list SqlColumnInfo)
    : SqlTableInfo :=
  {| Name := "t"; CatalogName := "main"; SchemaName := "s"; TableType := "EXTERNAL";
     DataSourceFormat := "DELTA"; ColumnInfos := cols; Partitions := [];
     ClusterKeys := None; StorageLocation := location; StorageCredentialName := "";
     ViewDefinition := ""; Comment := comment; Properties := None; Options := None;
     ClusterID := ""; WarehouseID := ""; Owner := "" |}.

(** * Properties *)

(** ** Escaping of literals *)

Lemma parseComment_escape_unescape s : parseComment s = escape (unescape s).
Proof. reflexivity. Qed.

Lemma replace_from_cons old new c rest :
  replace_from old new 0 (String c rest) =
  if String.prefix old (String c rest)
  then new +:+ replace_from old new (pred (String.length old)) rest
  else String c (replace_from old new 0 rest).
Proof. reflexivity. Qed.

Lemma prefix_cons a s1 b s2 :
  String.prefix (String a s1) (String b s2) =
  if ascii_dec a b then String.prefix s1 s2 else false.
Proof. reflexivity. Qed.

Lemma prefix_empty s : String.prefix "" s = true.
Proof. by destruct s. Qed.

Lemma escape_quote r : escape (String "'" r) = String "\" (String "'" (escape r)).
Proof.
  unfold escape, ReplaceAll. rewrite replace_from_cons, prefix_cons, prefix_empty.
  by destruct (ascii_dec "'" "'").
Qed.

Lemma escape_other c r : c ≠ "'"%char → escape (String c r) = String c (escape r).
Proof.
  intros Hc. unfold escape, ReplaceAll. rewrite replace_from_cons, prefix_cons.
  destruct (ascii_dec "'" c) as [e|_]; [congruence | reflexivity].
Qed.

Lemma unescape_pair r : unescape (String "\" (String "'" r)) = String "'" (unescape r).
Proof.
  unfold unescape, ReplaceAll.
  rewrite replace_from_cons, !prefix_cons, prefix_empty.
  destruct (ascii_dec "\" "\"); [|done]. destruct (ascii_dec "'" "'"); [|done].
  reflexivity.
Qed.

(** A backslash is only consumed together with the quote after it. *)
Lemma unescape_other c r :
  (c ≠ "\"%char ∨ ∀ r', r ≠ String "'" r') →
  unescape (String c r) = String c (unescape r).
Proof.
  intros Hc. unfold unescape, ReplaceAll. rewrite replace_from_cons.
  destruct r as [|d r].
  - cbn [String.prefix]. by destruct (ascii_dec "\" c).
  - rewrite !prefix_cons.
    destruct (ascii_dec "\" c) as [e1|_]; [|reflexivity].
    destruct (ascii_dec "'" d) as [e2|_]; [|reflexivity].
    destruct Hc as [Hc|Hc]; [congruence | destruct (Hc r); congruence].
Qed.

(** Escaped text never starts with a bare quote. *)
Lemma escape_head r r' : escape r ≠ String "'" r'.
Proof.
  destruct r as [|c r]; [discriminate|].
  destruct (decide (c = "'"%char)) as [->|Hc].
  - rewrite escape_quote. discriminate.
  - rewrite escape_other by done. congruence.
Qed.

Lemma unescape_escape s : unescape (escape s) = s.
Proof.
  induction s as [|c s IH]; [reflexivity|].
  destruct (decide (c = "'"%char)) as [->|Hc].
  - by rewrite escape_quote, unescape_pair, IH.
  - rewrite escape_other by done.
    rewrite unescape_other by (right; apply escape_head).
    by rewrite IH.
Qed.

(** C8. [parseComment] is idempotent: a comment that arrives escaped gets
    the same single level of escaping; equivalently, escaping the unescaped
    form of an escaped string gives the escaped string again. *)
Theorem parseComment_idempotent (s : string) :
  parseComment (parseComment s) = parseComment s
  ∧ escape (unescape (escape s)) = escape s.
Proof.
  split.
  - rewrite !parseComment_escape_unescape. by rewrite unescape_escape.
  - by rewrite unescape_escape.
Qed.

(** ** Loops that append *)

Lemma append_cons c (s1 s2 : string) : String c s1 +:+ s2 = String c (s1 +:+ s2).
Proof. reflexivity. Qed.

Lemma append_assoc (s1 s2 s3 : string) : (s1 +:+ s2) +:+ s3 = s1 +:+ s2 +:+ s3.
Proof.
  induction s1 as [|c s1 IH]; [reflexivity|].
  by rewrite !append_cons, IH.
Qed.


Lemma foldl_appendUnmanaged l acc :
  foldl appendUnmanaged acc l =
  acc ++ ((fun kv : string * string => "'" +:+ kv.1 +:+ "'='" +:+ kv.2 +:+ "'")
          <$> filter (fun kv : string * string => sqlTableIsManagedProperty kv.1 = false) l).
Proof.
  revert acc. induction l as [|kv l IH]; intros acc; cbn [foldl].
  - rewrite filter_nil. cbn [fmap list_fmap]. by rewrite app_nil_r.
  - rewrite IH. unfold appendUnmanaged at 1.
    rewrite filter_cons. destruct (sqlTableIsManagedProperty kv.1) eqn:E; cbn [negb].
    + by rewrite decide_False by done.
    + rewrite decide_True by done. rewrite fmap_cons. by rewrite <- app_assoc.
Qed.

Lemma foldl_appendRemovedProp props l acc :
  foldl (appendRemovedProp props) acc l =
  acc ++ (filter (fun k => props !! k = None) l.*1).
Proof.
  revert acc. induction l as [|[k v] l IH]; intros acc; cbn [foldl].
  - rewrite fmap_nil, filter_nil. by rewrite app_nil_r.
  - rewrite IH. unfold appendRemovedProp at 1. cbn [fst].
    rewrite fmap_cons, filter_cons. cbn [fst]. destruct (props !! k) eqn:E.
    + by rewrite decide_False by done.
    + rewrite decide_True by done. by rewrite <- app_assoc.
Qed.

Lemma foldl_appendRemoved (new : gmap string SqlColumnInfo) l acc :
  foldl (appendRemoved new) acc l =
  acc ++ (getWrappedColumnName <$>
            (filter (fun e : string * SqlColumnInfo => new !! e.1 = None) l).*2).
Proof.
  revert acc. induction l as [|[k v] l IH]; intros acc; cbn [foldl].
  - rewrite filter_nil, !fmap_nil. by rewrite app_nil_r.
  - rewrite IH. unfold appendRemoved at 1. cbn [fst snd].
    rewrite filter_cons. cbn [fst]. destruct (new !! k) eqn:E.
    + by rewrite decide_False by done.
    + rewrite decide_True by done. rewrite !fmap_cons. cbn [snd].
      by rewrite <- app_assoc.
Qed.

(** ** The column loops *)

Section ColumnLoops.
Context `{GoRuntime}.

Lemma alterColumnAt_same ti ty c stmts : alterColumnAt ti ty c c stmts = stmts.
Proof.
  unfold alterColumnAt.
  rewrite !decide_False by (intros ?; congruence). reflexivity.
Qed.

Lemma alterColumnAt_app ti ty c o stmts :
  alterColumnAt ti ty c o stmts = stmts ++ alterColumnAt ti ty c o [].
Proof.
  unfold alterColumnAt.
  repeat case_decide; rewrite <- ?app_assoc; cbn [app]; by rewrite ?app_nil_r.
Qed.

(** The positional loop never indexes past the previous columns when there
    are at least as many of them. *)
Lemma alterColumnsFrom_total ti oldti ty rest : ∀ i,
  (i + length rest ≤ length (ColumnInfos oldti))%nat →
  ∃ out, ∀ stmts, alterColumnsFrom ti oldti ty i rest stmts = Ok (stmts ++ out).
Proof.
  induction rest as [|c rest IH]; intros i Hlen; cbn [length alterColumnsFrom] in *.
  - exists []. intros stmts. by rewrite app_nil_r.
  - unfold index. destruct (ColumnInfos oldti !! i) as [o|] eqn:E.
    + destruct (IH (S i)) as [out Hout]; [lia|].
      exists (alterColumnAt ti ty c o [] ++ out). intros stmts. cbn [mbind go_bind].
      rewrite Hout. rewrite (alterColumnAt_app _ _ _ _ stmts), <- app_assoc. done.
    + apply lookup_ge_None in E. lia.
Qed.

Lemma alterColumnsFrom_same ti ty rest : ∀ i stmts,
  (∀ j c, rest !! j = Some c → ColumnInfos ti !! (i + j) = Some c) →
  alterColumnsFrom ti ti ty i rest stmts = Ok stmts.
Proof.
  induction rest as [|c rest IH]; intros i stmts Hrest; cbn [alterColumnsFrom]; [done|].
  unfold index. rewrite <- (Nat.add_0_r i) at 1. rewrite (Hrest 0 c) by done.
  cbn [mbind go_bind]. rewrite alterColumnAt_same. apply IH.
  intros j c' Hj. replace (S i + j) with (i + S j) by lia. by apply Hrest.
Qed.

(** The loop that adds columns looks one index back only from an index
    inside the desired list: it returns, and what it appends is the
    described list of statements. *)
Lemma addColumnsFrom_spec ti (old : gmap string SqlColumnInfo) ty rest : ∀ i stmts,
  drop i (ColumnInfos ti) = rest →
  addColumnsFrom ti old ty i rest stmts =
  Ok (stmts ++
      ((fun ic : nat * SqlColumnInfo =>
          "ALTER " +:+ ty +:+ " " +:+ SQLFullName ti +:+ " ADD COLUMN " +:+
          serializeColumnInfo ic.2 +:+ positionClause ti ic.1)
       <$> filter (fun ic : nat * SqlColumnInfo => old !! ColName ic.2 = None)
             (imap (fun j c => ((i + j)%nat, c)) rest))).
Proof.
  induction rest as [|c rest IH]; intros i stmts Hdrop.
  - cbn [addColumnsFrom imap]. rewrite filter_nil, fmap_nil. by rewrite app_nil_r.
  - assert (drop (S i) (ColumnInfos ti) = rest) as Hdrop'.
    { rewrite <- (Nat.add_1_r i), <- drop_drop, Hdrop. done. }
    cbn [addColumnsFrom imap]. rewrite filter_cons. cbn [snd]. rewrite Nat.add_0_r.
    rewrite (imap_ext _ (fun j c0 => ((S i + j)%nat, c0)) rest)
      by (intros; cbn; f_equal; lia).
    destruct (old !! ColName c) eqn:E.
    + rewrite decide_False by done. cbn [mbind go_bind]. by rewrite IH.
    + rewrite decide_True by done. rewrite fmap_cons. cbn [fst snd].
      destruct i as [|i].
      * cbn [Nat.eqb mbind go_bind positionClause]. rewrite IH by done.
        by rewrite <- app_assoc.
      * cbn [Nat.eqb Nat.sub mbind go_bind positionClause]. rewrite Nat.sub_0_r.
        unfold index.
        destruct (ColumnInfos ti !! i) as [p|] eqn:Ep.
        -- cbn [mbind go_bind fmap option_fmap option_map default].
           rewrite IH by done. by rewrite <- app_assoc.
        -- apply lookup_ge_None in Ep.
           rewrite drop_ge in Hdrop by lia. done.
Qed.

End ColumnLoops.

(** ** The diff as attribute statements followed by column statements *)

Section DiffShape.
Context `{GoRuntime}.

Lemma addOrRemoveColumnStatements_spec ti oldti stmts ty :
  addOrRemoveColumnStatements ti oldti stmts ty =
  Ok (stmts ++
      (let removed :=
         getWrappedColumnName <$>
           (filter (fun e : string * SqlColumnInfo =>
                      nameToColumn (ColumnInfos ti) !! e.1 = None)
              (map_range RangeOldColumns (nameToColumn (ColumnInfos oldti)))).*2 in
       if (0 <? length removed)%nat
       then ["ALTER " +:+ ty +:+ " " +:+ SQLFullName ti +:+
             " DROP COLUMN IF EXISTS (" +:+ Join removed ", " +:+ ")"]
       else []) ++
      ((fun ic : nat * SqlColumnInfo =>
          "ALTER " +:+ ty +:+ " " +:+ SQLFullName ti +:+ " ADD COLUMN " +:+
          serializeColumnInfo ic.2 +:+ positionClause ti ic.1)
       <$> filter (fun ic : nat * SqlColumnInfo =>
                     nameToColumn (ColumnInfos oldti) !! ColName ic.2 = None)
             (imap pair (ColumnInfos ti)))).
Proof.
  unfold addOrRemoveColumnStatements.
  rewrite foldl_appendRemoved, app_nil_l.
  rewrite addColumnsFrom_spec by done.
  cbv zeta. f_equal.
  destruct (0 <? _)%nat; [by rewrite <- app_assoc | reflexivity].
Qed.

(** The column statements are appended to whatever came before, and the
    dispatch on the column counts keeps every index in range. *)
Lemma getStatementsForColumnDiffs_total ti oldti ty :
  ∃ out, ∀ stmts, getStatementsForColumnDiffs ti oldti stmts ty = Ok (stmts ++ out).
Proof.
  unfold getStatementsForColumnDiffs. case_decide as Hlen.
  - eexists. intros stmts. rewrite addOrRemoveColumnStatements_spec.
    reflexivity.
  - unfold alterExistingColumnStatements.
    apply alterColumnsFrom_total. cbn [Nat.add]. lia.
Qed.

Lemma getStatementsForColumnDiffs_nil ti oldti ty stmts :
  ColumnInfos ti = [] → ColumnInfos oldti = [] →
  getStatementsForColumnDiffs ti oldti stmts ty = Ok stmts.
Proof.
  intros E1 E2. unfold getStatementsForColumnDiffs, alterExistingColumnStatements.
  rewrite E1, E2. by rewrite decide_False by (cbn [length]; lia).
Qed.

(** [diff] is the statements for the attributes, which do not depend on the
    columns, followed by the column statements. *)
Lemma diff_shape ti oldti :
  ∃ attrs,
    diff (withColumns [] ti) (withColumns [] oldti) = Ok (attrs, None)
    ∧ ∀ stmts cols,
        getStatementsForColumnDiffs ti oldti stmts (getTableTypeString ti)
          = Ok (stmts ++ cols) →
        diff ti oldti = Ok (attrs ++ cols, None).
Proof.
  unfold diff at 1.
  rewrite getStatementsForColumnDiffs_nil by done.
  eexists. split; [reflexivity|].
  intros stmts cols Hcols.
  destruct (getStatementsForColumnDiffs_total ti oldti (getTableTypeString ti))
    as [out Hout].
  assert (cols = out) as ->.
  { rewrite Hout in Hcols. injection Hcols as Hcols. by apply app_inv_head in Hcols. }
  unfold diff. rewrite Hout. reflexivity.
Qed.

End DiffShape.

(** ** Columns by name *)

Lemma nameToColumn_foldl_notin (l : list SqlColumnInfo) : ∀ (m : gmap string SqlColumnInfo) n,
  n ∉ ColName <$> l →
  foldl (fun m ci => <[ColName ci := ci]> m) m l !! n = m !! n.
Proof.
  induction l as [|c l IH]; intros m n Hn; cbn [foldl]; [done|].
  rewrite fmap_cons in Hn. apply not_elem_of_cons in Hn as [Hne Hn].
  rewrite IH by done. by rewrite lookup_insert_ne.
Qed.

Lemma nameToColumn_foldl_Some (l : list SqlColumnInfo) : ∀ (m : gmap string SqlColumnInfo) n c,
  foldl (fun m ci => <[ColName ci := ci]> m) m l !! n = Some c →
  m !! n = Some c ∨ (ColName c = n ∧ c ∈ l).
Proof.
  induction l as [|d l IH]; intros m n c Hc; cbn [foldl] in Hc; [by left|].
  apply IH in Hc as [Hc|[Hc1 Hc2]].
  - destruct (decide (ColName d = n)) as [<-|Hne].
    + rewrite lookup_insert_eq in Hc. injection Hc as ->. right. split; [done|left].
    + rewrite lookup_insert_ne in Hc by done. by left.
  - right. split; [done | by right].
Qed.

Lemma nameToColumn_foldl_None (l : list SqlColumnInfo) : ∀ (m : gmap string SqlColumnInfo) n,
  foldl (fun m ci => <[ColName ci := ci]> m) m l !! n = None
  ↔ m !! n = None ∧ n ∉ ColName <$> l.
Proof.
  induction l as [|d l IH]; intros m n; cbn [foldl].
  - rewrite fmap_nil. split; [intros ?; split; [done | apply not_elem_of_nil] | by intros [? _]].
  - rewrite IH, fmap_cons, not_elem_of_cons, lookup_insert_None. intuition congruence.
Qed.

Lemma nameToColumn_None l n :
  nameToColumn l !! n = None ↔ n ∉ ColName <$> l.
Proof.
  unfold nameToColumn. rewrite nameToColumn_foldl_None, lookup_empty. intuition.
Qed.

Lemma nameToColumn_Some l n c :
  nameToColumn l !! n = Some c → ColName c = n ∧ c ∈ l.
Proof.
  intros Hc. apply nameToColumn_foldl_Some in Hc as [Hc|Hc]; [|done].
  by rewrite lookup_empty in Hc.
Qed.

Lemma nameToColumn_NoDup l c :
  NoDup (ColName <$> l) → c ∈ l → nameToColumn l !! ColName c = Some c.
Proof.
  unfold nameToColumn. generalize (∅ : gmap string SqlColumnInfo).
  induction l as [|d l IH]; intros m Hnd Hc; [by apply elem_of_nil in Hc|].
  rewrite fmap_cons in Hnd. apply NoDup_cons in Hnd as [Hd Hnd].
  cbn [foldl]. apply elem_of_cons in Hc as [->|Hc].
  - rewrite nameToColumn_foldl_notin by done. apply lookup_insert_eq.
  - by apply IH.
Qed.

(** ** Properties of the diff engine *)

Section DiffProperties.
Context `{GoRuntime}.

(** C3. The diff of a table description against itself is the empty
    statement list, with no error. *)
Theorem diff_identical (x : SqlTableInfo) : diff x x = Ok ([], None).
Proof.
  unfold diff, DeepEqual.
  rewrite !bool_decide_eq_true_2 by done. cbn [negb].
  rewrite !decide_False by (intros ?; congruence).
  assert (∀ stmts ty, getStatementsForColumnDiffs x x stmts ty = Ok stmts) as Hcols.
  { intros stmts ty. unfold getStatementsForColumnDiffs, alterExistingColumnStatements.
    rewrite decide_False by (intros ?; congruence).
    by apply alterColumnsFrom_same. }
  rewrite Hcols. cbn [mbind go_bind]. repeat case_decide; congruence.
Qed.

Lemma applyAll_error World (applySql : SqlTableInfo → string → World → error * World)
    ti stmts : ∀ w err w',
  applyAll World applySql ti stmts w = (Some err, w') →
  ∃ statement w0, statement ∈ stmts ∧ applySql ti statement w0 = (Some err, w').
Proof.
  induction stmts as [|s stmts IH]; intros w err w' Hrun; cbn [applyAll] in Hrun.
  - discriminate.
  - destruct (applySql ti s w) as [[e|] w1] eqn:E.
    + injection Hrun as -> ->. exists s, w. split; [left | done].
    + destruct (IH _ _ _ Hrun) as (statement & w0 & Hin & Happ).
      exists statement, w0. split; [by right | done].
Qed.

(** C10. [diff] always returns, and the error it returns is always [nil]:
    for every pair of descriptions there is a statement list with which it
    returns; so [updateTable] returns too, and an error it returns is the
    error of applying one of the statements of the diff. *)
Theorem diff_never_fails (ti oldti : SqlTableInfo) :
  (∃ stmts, diff ti oldti = Ok (stmts, None))
  ∧ ∀ (World : Type) (applySql : SqlTableInfo → string → World → error * World) (w : World),
      ∃ r, updateTable World applySql ti oldti w = Ok r
           ∧ ∀ err w', r = (Some err, w') →
               ∃ stmts statement w0,
                 diff ti oldti = Ok (stmts, None)
                 ∧ statement ∈ stmts
                 ∧ applySql ti statement w0 = (Some err, w').
Proof.
  destruct (diff_shape ti oldti) as (attrs & _ & Hdiff).
  destruct (getStatementsForColumnDiffs_total ti oldti (getTableTypeString ti))
    as [cols Hcols].
  specialize (Hdiff [] cols (Hcols [])).
  split; [eauto|].
  intros World applySql w. unfold updateTable. rewrite Hdiff.
  cbn [mbind go_bind fst snd]. eexists. split; [reflexivity|].
  intros err w' Hrun. apply applyAll_error in Hrun as (statement & w0 & Hin & Happ).
  eauto 10.
Qed.

(** C7. With one previous column and one desired column that differ in
    name only, the column statements are exactly one [RENAME COLUMN] from
    the previous to the desired name; the diff is the statements for the
    table attributes followed by that one statement. *)
Theorem rename_only (ti oldti : SqlTableInfo) (a b type comment : string) (nullable : bool) :
  a ≠ b →
  ColumnInfos oldti =
    [{| ColName := a; ColType := type; ColComment := comment; ColNullable := nullable |}] →
  ColumnInfos ti =
    [{| ColName := b; ColType := type; ColComment := comment; ColNullable := nullable |}] →
  (∀ stmts typestring,
     getStatementsForColumnDiffs ti oldti stmts typestring =
     Ok (stmts ++ ["ALTER " +:+ typestring +:+ " " +:+ SQLFullName ti +:+
                   " RENAME COLUMN `" +:+ a +:+ "` to `" +:+ b +:+ "`"]))
  ∧ ∃ attrs,
      diff (withColumns [] ti) (withColumns [] oldti) = Ok (attrs, None)
      ∧ diff ti oldti =
        Ok (attrs ++ ["ALTER " +:+ getTableTypeString ti +:+ " " +:+ SQLFullName ti +:+
                      " RENAME COLUMN `" +:+ a +:+ "` to `" +:+ b +:+ "`"], None).
Proof.
  intros Hab Hold Hnew.
  assert (∀ stmts typestring,
     getStatementsForColumnDiffs ti oldti stmts typestring =
     Ok (stmts ++ ["ALTER " +:+ typestring +:+ " " +:+ SQLFullName ti +:+
                   " RENAME COLUMN `" +:+ a +:+ "` to `" +:+ b +:+ "`"])) as Hcols.
  { intros stmts ty.
    unfold getStatementsForColumnDiffs, alterExistingColumnStatements.
    rewrite Hold, Hnew. rewrite decide_False by (intros Hlen; by apply Hlen).
    cbn [alterColumnsFrom]. rewrite Hold. unfold index.
    cbn [lookup list_lookup mbind go_bind].
    unfold alterColumnAt, getWrappedColumnName. cbn [ColName ColComment ColNullable].
    rewrite (decide_False (P := nullable ≠ nullable)) by (intros E; by apply E).
    rewrite (decide_False (P := comment ≠ comment)) by (intros E; by apply E).
    rewrite (decide_True (P := b ≠ a)) by congruence.
    rewrite !append_assoc. reflexivity. }
  split; [done|].
  destruct (diff_shape ti oldti) as (attrs & Hattrs & Hdiff).
  exists attrs. split; [done|]. by apply (Hdiff []).
Qed.

End DiffProperties.

(** ** Ranging over a map *)

Section Range.
Context `{GoRuntime}.

Lemma map_range_lookup {V} site (m : gmap string V) k v :
  (k, v) ∈ map_range site m ↔ m !! k = Some v.
Proof. rewrite (map_range_perm V site m). apply elem_of_map_to_list. Qed.

Lemma map_range_NoDup_keys {V} site (m : gmap string V) :
  NoDup (map_range site m).*1.
Proof. rewrite (map_range_perm V site m). apply NoDup_fst_map_to_list. Qed.

Lemma map_range_key {V} site (m : gmap string V) k :
  k ∈ (map_range site m).*1 ↔ is_Some (m !! k).
Proof.
  rewrite list_elem_of_fmap. split.
  - intros ([k' v] & -> & Hin). apply map_range_lookup in Hin. eauto.
  - intros [v Hv]. exists (k, v). split; [done | by apply map_range_lookup].
Qed.

End Range.

Lemma filter_fst {K V} (P : K → Prop) `{∀ k, Decision (P k)} (l : list (K * V)) :
  (filter (fun e : K * V => P e.1) l).*1 = filter P l.*1.
Proof.
  induction l as [|[k v] l IH]; [done|].
  rewrite fmap_cons, !filter_cons. cbn [fst].
  destruct (decide (P k)); [rewrite fmap_cons|]; by rewrite IH.
Qed.

(** ** Adding and removing columns *)

Section AddRemove.
Context `{GoRuntime}.

(** C4. When the column counts differ, the column statements are: at most
    one [DROP COLUMN IF EXISTS], present exactly when some previous name is
    absent from the desired names and listing each such name once; after
    it, one [ADD COLUMN] per desired column whose name is absent from the
    previous names, in desired order, with [FIRST] at desired index 0 and
    otherwise [AFTER] the name of the desired column one index back. *)
Theorem add_remove_columns (ti oldti : SqlTableInfo) :
  length (ColumnInfos ti) ≠ length (ColumnInfos oldti) →
  ∃ dropped : list string,
    NoDup dropped
    ∧ (∀ n, n ∈ dropped ↔
            n ∈ ColName <$> ColumnInfos oldti ∧ n ∉ ColName <$> ColumnInfos ti)
    ∧ (∀ stmts typestring,
         getStatementsForColumnDiffs ti oldti stmts typestring =
         Ok (stmts ++ dropColumnStatements ti typestring dropped
                   ++ addColumnStatements ti oldti typestring))
    ∧ ∃ attrs,
        diff (withColumns [] ti) (withColumns [] oldti) = Ok (attrs, None)
        ∧ diff ti oldti =
          Ok (attrs ++ dropColumnStatements ti (getTableTypeString ti) dropped
                    ++ addColumnStatements ti oldti (getTableTypeString ti), None).
Proof.
  intros Hlen.
  set (new := nameToColumn (ColumnInfos ti)).
  set (old := nameToColumn (ColumnInfos oldti)).
  set (gone := filter (fun e : string * SqlColumnInfo => new !! e.1 = None)
                 (map_range RangeOldColumns old)).
  assert (∀ stmts typestring,
         getStatementsForColumnDiffs ti oldti stmts typestring =
         Ok (stmts ++ dropColumnStatements ti typestring gone.*1
                   ++ addColumnStatements ti oldti typestring)) as Hcols.
  { intros stmts ty. unfold getStatementsForColumnDiffs.
    rewrite decide_True by done. rewrite addOrRemoveColumnStatements_spec.
    cbv zeta. fold new old gone. do 3 f_equal.
    - assert (getWrappedColumnName <$> gone.*2
              = (fun n => "`" +:+ n +:+ "`") <$> gone.*1) as ->.
      { rewrite <- !list_fmap_compose. apply Forall_fmap_ext_1, Forall_forall.
        intros [k v] Hin. apply list_elem_of_filter in Hin as [_ Hin].
        apply map_range_lookup, nameToColumn_Some in Hin as [<- _]. done. }
      rewrite !length_fmap. unfold dropColumnStatements.
      destruct gone as [|e gone']; [done|]. reflexivity.
    - unfold addColumnStatements. f_equal. apply list_filter_iff.
      intros [i c]. apply nameToColumn_None. }
  assert (gone.*1 = filter (fun k => new !! k = None) (map_range RangeOldColumns old).*1)
    as Hgone by exact (filter_fst (fun k => new !! k = None) (map_range RangeOldColumns old)).
  exists gone.*1. split; [|split; [|split; [exact Hcols|]]].
  - rewrite Hgone. apply NoDup_filter, map_range_NoDup_keys.
  - intros n. rewrite Hgone.
    rewrite list_elem_of_filter, map_range_key.
    unfold new, old. rewrite nameToColumn_None.
    rewrite <- not_eq_None_Some, nameToColumn_None.
    split; intros [? ?]; split; try done.
    + by apply dec_stable.
    + by intros ?.
  - destruct (diff_shape ti oldti) as (attrs & Hattrs & Hdiff).
    exists attrs. split; [done|]. by apply (Hdiff []).
Qed.

End AddRemove.

(** ** Properties and managed keys *)

Section ManagedKeys.
Context `{GoRuntime}.

Lemma map_range_singleton {V} site (k : string) (v : V) :
  map_range site ({[k := v]} : gmap string V) = [(k, v)].
Proof.
  apply Permutation_singleton_r.
  rewrite (map_range_perm V site), map_to_list_singleton. done.
Qed.

Lemma removeProps_elem (ti oldti : SqlTableInfo) key :
  key ∈ removeProps ti oldti ↔
  is_Some (entries (Properties oldti) !! key) ∧ entries (Properties ti) !! key = None.
Proof.
  unfold removeProps. rewrite foldl_appendRemovedProp, app_nil_l.
  rewrite list_elem_of_filter, map_range_key. tauto.
Qed.

Lemma removeProps_NoDup (ti oldti : SqlTableInfo) : NoDup (removeProps ti oldti).
Proof.
  unfold removeProps. rewrite foldl_appendRemovedProp, app_nil_l.
  apply NoDup_filter, map_range_NoDup_keys.
Qed.

Lemma keepOldProperty_mono {V} (oldProps options newProps : gmap string V) key k :
  is_Some (newProps !! k) → is_Some (keepOldProperty oldProps options newProps key !! k).
Proof.
  intros Hk. unfold keepOldProperty.
  destruct (newProps !! key); [done|].
  assert (∀ (m : gmap string V) v, is_Some (m !! k) → is_Some (<[key := v]> m !! k)) as Hins.
  { intros m v Hm. rewrite lookup_insert. case_decide; eauto. }
  destruct (options !! key), (oldProps !! key),
    (sqlTableIsManagedProperty key || HasPrefix key "option."); auto.
Qed.

Lemma keepOldProperty_managed {V} (oldProps options newProps : gmap string V) key :
  sqlTableIsManagedProperty key = true → is_Some (oldProps !! key) →
  is_Some (keepOldProperty oldProps options newProps key !! key).
Proof.
  intros Hm [v Hv]. unfold keepOldProperty.
  destruct (newProps !! key) eqn:E; [by rewrite E|].
  rewrite Hm, Hv. cbn [orb].
  destruct (options !! key); rewrite lookup_insert_eq; eauto.
Qed.

(** [CustomizeDiff] carries every managed key of the old properties over
    to the planned ones. *)
Lemma customizeDiffProperties_managed {V} (oldProps newProps options : gmap string V) key :
  sqlTableIsManagedProperty key = true → is_Some (oldProps !! key) →
  is_Some (customizeDiffProperties oldProps newProps options !! key).
Proof.
  intros Hm Hold. unfold customizeDiffProperties.
  assert (key ∈ (map_range RangeOldProps oldProps).*1) as Hin by by apply map_range_key.
  revert newProps Hin. generalize ((map_range RangeOldProps oldProps).*1).
  intros ks. induction ks as [|k ks IH]; intros newProps Hin.
  - by apply elem_of_nil in Hin.
  - cbn [foldl]. apply elem_of_cons in Hin as [<-|Hin]; [|by apply IH].
    assert (∀ l (m : gmap string V), is_Some (m !! key) →
              is_Some (foldl (keepOldProperty oldProps options) m l !! key)) as Hmono.
    { intros l. induction l as [|k' l IHl]; intros m Hk; [done|].
      cbn [foldl]. by apply IHl, keepOldProperty_mono. }
    by apply Hmono, keepOldProperty_managed.
Qed.

(** C1, as the code has it.  When the property maps differ, the keys of
    the [UNSET TBLPROPERTIES] statement are exactly the keys of the
    previous map that the desired map lacks, each once and managed or not,
    and the statement stands right before the [SET TBLPROPERTIES] one.  A
    managed key of the previous map is kept out of it by [CustomizeDiff]:
    it is absent from the list whenever the desired map is one that
    [CustomizeDiff] completed from old properties holding that key. *)
Theorem unset_lists_removed_keys (ti oldti : SqlTableInfo) :
  Properties ti ≠ Properties oldti →
  NoDup (removeProps ti oldti)
  ∧ (∀ key, key ∈ removeProps ti oldti ↔
       is_Some (entries (Properties oldti) !! key) ∧ entries (Properties ti) !! key = None)
  ∧ (∃ before columns,
       diff ti oldti =
       Ok (before ++ unsetStatements ti (removeProps ti oldti)
             ++ ["ALTER " +:+ getTableTypeString ti +:+ " " +:+ SQLFullName ti +:+
                 " SET TBLPROPERTIES (" +:+ serializeProperties ti +:+ ")"]
             ++ columns, None))
  ∧ (∀ (oldProps newProps options : gmap string string) key,
       entries (Properties ti) = customizeDiffProperties oldProps newProps options →
       sqlTableIsManagedProperty key = true →
       is_Some (oldProps !! key) →
       key ∉ removeProps ti oldti).
Proof.
  intros Hne. split; [apply removeProps_NoDup|]. split; [apply removeProps_elem|]. split.
  - destruct (getStatementsForColumnDiffs_total ti oldti (getTableTypeString ti))
      as [cols Hcols].
    unfold diff, DeepEqual. rewrite (bool_decide_eq_false_2 _ Hne). cbn [negb].
    match goal with
    | |- context [(if (0 <? _)%nat then ?st ++ _ else _) ++ _] => exists st
    end.
    exists cols. rewrite Hcols. cbn [mbind go_bind]. do 2 f_equal.
    unfold unsetStatements.
    destruct (removeProps ti oldti) as [|k ks]; cbn [length Nat.ltb Nat.leb].
    + by rewrite <- !app_assoc.
    + by rewrite <- !app_assoc.
  - intros oldProps newProps options key Hplanned Hm Hold Hin.
    apply removeProps_elem in Hin as [_ Hnone].
    rewrite Hplanned in Hnone.
    destruct (customizeDiffProperties_managed oldProps newProps options key Hm Hold)
      as [v Hv].
    congruence.
Qed.

End ManagedKeys.

(** ** Evaluations *)

(** C1, as stated, fails: the previous map holds the managed key
    [delta.minReaderVersion], the desired map does not, and the key is
    listed in the [UNSET TBLPROPERTIES] statement. *)
Lemma managed_key_is_unset :
  let desired := sampleTable [] [] None (Some ∅) None in
  let previous :=
    sampleTable [] [] None (Some {["delta.minReaderVersion" := "1"]}) None in
  sqlTableIsManagedProperty "delta.minReaderVersion" = true
  ∧ entries (Properties previous) !! "delta.minReaderVersion" = Some "1"
  ∧ entries (Properties desired) !! "delta.minReaderVersion" = None
  ∧ removeProps desired previous = ["delta.minReaderVersion"]
  ∧ diff desired previous =
    Ok (["ALTER TABLE `main`.`s`.`t` UNSET TBLPROPERTIES IF EXISTS (delta.minReaderVersion)";
         "ALTER TABLE `main`.`s`.`t` SET TBLPROPERTIES ()"], None).
Proof. vm_compute. repeat split; reflexivity. Qed.

Section Evaluations.
Context `{GoRuntime}.

Lemma serializeProperties_singleton ti k v :
  Properties ti = Some {[k := v]} →
  serializeProperties ti = Join (appendUnmanaged [] (k, v)) ", ".
Proof.
  intros E. unfold serializeProperties. rewrite E. cbn [entries from_option id].
  by rewrite map_range_singleton.
Qed.

Lemma serializeOptions_singleton ti k v :
  Options ti = Some {[k := v]} →
  serializeOptions ti = Join (appendUnmanaged [] (k, v)) ", ".
Proof.
  intros E. unfold serializeOptions. rewrite E. cbn [entries from_option id].
  by rewrite map_range_singleton.
Qed.

Lemma range_single_column oldti c :
  ColumnInfos oldti = [c] →
  map_range RangeOldColumns (nameToColumn (ColumnInfos oldti)) = [(ColName c, c)].
Proof.
  intros E. rewrite E. unfold nameToColumn. cbn [foldl].
  by rewrite insert_empty, map_range_singleton.
Qed.

(** Whatever the order of the visit, a map of managed keys only is
    serialised to the empty string. *)
Lemma serializeProperties_managed_only ti :
  (∀ k, is_Some (entries (Properties ti) !! k) → sqlTableIsManagedProperty k = true) →
  serializeProperties ti = "".
Proof.
  intros Hall. unfold serializeProperties. rewrite foldl_appendUnmanaged, app_nil_l.
  assert (filter (fun kv : string * string => sqlTableIsManagedProperty kv.1 = false)
            (map_range RangeProperties (entries (Properties ti))) = []) as ->; [|done].
  apply elem_of_nil_inv. intros [k v] Hin.
  apply list_elem_of_filter in Hin as [Hk Hin]. cbn [fst] in Hk.
  apply map_range_lookup in Hin. rewrite (Hall k) in Hk by eauto. discriminate.
Qed.

(** C2. With a property map, and an option map, that hold managed keys
    only, the create statement has the clauses [TBLPROPERTIES ()] and
    [OPTIONS ()], with nothing between the parentheses. *)
Theorem managed_only_clauses_are_emitted :
  buildTableCreateStatement
    (sampleTable [sampleColumn "id" "int"] [] None
       (Some {["delta.enableDeletionVectors" := "true"]})
       (Some {["delta.minReaderVersion" := "1"]}))
  = "CREATE TABLE `main`.`s`.`t` (`id` int)" +:+ newline +:+
    "USING DELTA" +:+ newline +:+
    "TBLPROPERTIES ()" +:+ newline +:+
    "OPTIONS ();".
Proof.
  unfold buildTableCreateStatement.
  rewrite (serializeProperties_singleton _ "delta.enableDeletionVectors" "true")
    by reflexivity.
  rewrite (serializeOptions_singleton _ "delta.minReaderVersion" "1") by reflexivity.
  vm_compute. reflexivity.
Qed.

(** C9. The names in [PARTITIONED BY] and [CLUSTER BY] and the name after
    [AFTER] are written without backticks, next to column names that are
    wrapped. *)
Theorem some_identifiers_are_not_wrapped :
  buildTableCreateStatement
    (sampleTable [sampleColumn "id" "int"] ["university"; "major"] None None None)
  = "CREATE TABLE `main`.`s`.`t` (`id` int)" +:+ newline +:+
    "USING DELTA" +:+ newline +:+
    "PARTITIONED BY (university, major);"
  ∧ buildTableCreateStatement
      (sampleTable [sampleColumn "id" "int"] [] (Some ["university"; "major"]) None None)
    = "CREATE TABLE `main`.`s`.`t` (`id` int)" +:+ newline +:+
      "USING DELTA" +:+ newline +:+
      "CLUSTER BY (university, major);"
  ∧ diff (sampleTable [sampleColumn "a" "int"; sampleColumn "b" "string"] [] None None None)
         (sampleTable [sampleColumn "a" "int"] [] None None None)
    = Ok (["ALTER TABLE `main`.`s`.`t` ADD COLUMN `b` string AFTER a"], None).
Proof.
  split; [|split].
  - vm_compute. reflexivity.
  - vm_compute. reflexivity.
  - unfold diff, getStatementsForColumnDiffs, addOrRemoveColumnStatements.
    rewrite (range_single_column _ (sampleColumn "a" "int")) by reflexivity.
    vm_compute. reflexivity.
Qed.

End Evaluations.

(** ** Properties of the validators *)

Lemma columnBlock_name ci : lookup_any (columnBlock ci) "name" = AnyString (ColName ci).
Proof. reflexivity. Qed.

Lemma columnBlock_type ci : lookup_any (columnBlock ci) "type" = AnyString (ColType ci).
Proof. reflexivity. Qed.

Lemma columnBlock_comment ci :
  lookup_any (columnBlock ci) "comment" = AnyString (ColComment ci).
Proof. reflexivity. Qed.

Lemma columnBlock_nullable ci :
  lookup_any (columnBlock ci) "nullable" = AnyBool (ColNullable ci).
Proof. reflexivity. Qed.

Section ValidatorProperties.
Context `{GoRuntime}.

(** The alias table, read entry by entry. *)
Lemma getColumnType_aliasOf s : getColumnType s = aliasOf (ToLower s).
Proof.
  unfold getColumnType, aliasOf, columnTypeAliases. cbv zeta.
  generalize (ToLower s). intros t.
  cbn [list_to_map foldr fst snd].
  repeat (rewrite lookup_insert; case_decide; [subst; done|]).
  rewrite lookup_empty.
  repeat (case_decide; [congruence|]). done.
Qed.

Lemma assertNoColumnTypeDiffFrom_spec (old new : list SqlColumnInfo) : ∀ i,
  (i + length old ≤ length new)%nat →
  (assertNoColumnTypeDiffFrom i (columnBlock <$> old) new = Ok (Errorf typeChangeError)
   ∧ ∃ j o n, old !! j = Some o ∧ new !! (i + j)%nat = Some n
              ∧ getColumnType (ColType o) ≠ getColumnType (ColType n))
  ∨ (assertNoColumnTypeDiffFrom i (columnBlock <$> old) new = Ok None
     ∧ ∀ j o n, old !! j = Some o → new !! (i + j)%nat = Some n →
                getColumnType (ColType o) = getColumnType (ColType n)).
Proof.
  induction old as [|o old IH]; intros i Hlen.
  - right. split; [done|]. intros j o n Ho. by rewrite lookup_nil in Ho.
  - cbn [length] in Hlen. rewrite fmap_cons. cbn [assertNoColumnTypeDiffFrom].
    rewrite columnBlock_type. cbn [assertString mbind go_bind]. unfold index.
    destruct (new !! i) as [n|] eqn:En; [|apply lookup_ge_None in En; lia].
    cbn [mbind go_bind].
    destruct (decide (getColumnType (ColType o) ≠ getColumnType (ColType n))) as [Hd|Hd].
    + left. split; [done|]. exists 0, o, n. by rewrite Nat.add_0_r.
    + apply dec_stable in Hd.
      destruct (IH (S i)) as [[Hr (j & o' & n' & Ho & Hn & Hne)]|[Hr Hall]]; [lia|..].
      * left. split; [done|]. exists (S j), o', n'.
        split; [done|]. split; [|done]. by rewrite <- Nat.add_succ_comm.
      * right. split; [done|]. intros [|j] o' n' Ho Hn.
        -- rewrite Nat.add_0_r in Hn. cbn in Ho. congruence.
        -- rewrite <- Nat.add_succ_comm in Hn. by apply (Hall j).
Qed.

(** C6. For as many old columns as new ones, [assertNoColumnTypeDiff]
    fails exactly when the normalised types differ at some position.
    Normalisation lower-cases and then applies the alias table; [Integer]
    against [int] is no difference. *)
Theorem type_change_rejected (old new : list SqlColumnInfo) :
  length old = length new →
  (assertNoColumnTypeDiff (columnBlock <$> old) new = Ok (Errorf typeChangeError)
   ↔ ∃ i o n, old !! i = Some o ∧ new !! i = Some n
              ∧ getColumnType (ColType o) ≠ getColumnType (ColType n))
  ∧ (assertNoColumnTypeDiff (columnBlock <$> old) new = Ok None
     ↔ ∀ i o n, old !! i = Some o → new !! i = Some n →
                getColumnType (ColType o) = getColumnType (ColType n))
  ∧ (∀ newTable, ColumnInfos newTable = new →
       columnChangesCustomizeDiff (columnBlock <$> old) newTable =
       assertNoColumnTypeDiff (columnBlock <$> old) new)
  ∧ (∀ s, getColumnType s = aliasOf (ToLower s))
  ∧ getColumnType "Integer" = getColumnType "int"
  ∧ (∀ name, assertNoColumnTypeDiff [columnBlock (sampleColumn name "Integer")]
               [sampleColumn name "int"] = Ok None).
Proof.
  intros Hlen.
  assert (∀ newTable, ColumnInfos newTable = new →
       columnChangesCustomizeDiff (columnBlock <$> old) newTable =
       assertNoColumnTypeDiff (columnBlock <$> old) new) as Hrun.
  { intros newTable <-. unfold columnChangesCustomizeDiff.
    rewrite length_fmap. by rewrite decide_True. }
  unfold assertNoColumnTypeDiff in *.
  assert (getColumnType "Integer" = getColumnType "int") as Hint.
  { rewrite !getColumnType_aliasOf, !ToLower_ascii by reflexivity. reflexivity. }
  destruct (assertNoColumnTypeDiffFrom_spec old new 0) as [[Hr Hex]|[Hr Hall]];
    [cbn [Nat.add]; lia|..]; cbn [Nat.add] in *.
  - split; [|split; [|split; [|split; [|split]]]].
    + split; [by intros _ | by intros _].
    + rewrite Hr. split; [discriminate|].
      intros Hall. destruct Hex as (j & o & n & Ho & Hn & Hne).
      by destruct Hne; apply (Hall j).
    + exact Hrun.
    + apply getColumnType_aliasOf.
    + exact Hint.
    + intros name. cbn [assertNoColumnTypeDiffFrom].
      rewrite columnBlock_type. cbn [assertString mbind go_bind index lookup list_lookup].
      cbn [sampleColumn ColType]. by rewrite decide_False by (intros Hne; by apply Hne).
  - split; [|split; [|split; [|split; [|split]]]].
    + rewrite Hr. split; [discriminate|].
      intros (j & o & n & Ho & Hn & Hne). by destruct Hne; apply (Hall j).
    + split; [by intros _ | by intros _].
    + exact Hrun.
    + apply getColumnType_aliasOf.
    + exact Hint.
    + intros name. cbn [assertNoColumnTypeDiffFrom].
      rewrite columnBlock_type. cbn [assertString mbind go_bind index lookup list_lookup].
      cbn [sampleColumn ColType]. by rewrite decide_False by (intros Hne; by apply Hne).
Qed.

End ValidatorProperties.

Section MixedChange.
Context `{GoRuntime}.

Lemma oldColsByName_blocks (old : list SqlColumnInfo) : ∀ m : gmap string SqlColumnInfo,
  oldColsByName (columnBlock <$> old) (columnBlock <$> m) =
  Ok (columnBlock <$> foldl (fun m ci => <[ColName ci := ci]> m) m old).
Proof.
  induction old as [|o old IH]; intros m; [done|].
  rewrite fmap_cons. cbn [oldColsByName foldl].
  rewrite columnBlock_name. cbn [assertString mbind go_bind].
  by rewrite <- fmap_insert, IH.
Qed.

(** Whether the condition of the loop body holds for the block of [o]. *)
Lemma differ_condition (o n : SqlColumnInfo) :
  bool_decide (getColumnType (ColType o) ≠ getColumnType (ColType n))
  || bool_decide (lookup_any (columnBlock o) "nullable" ≠ AnyBool (ColNullable n))
  || bool_decide (lookup_any (columnBlock o) "comment" ≠ AnyString (ColComment n)) = true
  ↔ attributesDiffer o n.
Proof.
  rewrite columnBlock_nullable, columnBlock_comment. unfold attributesDiffer.
  rewrite !orb_true_iff, !bool_decide_eq_true.
  assert (AnyBool (ColNullable o) ≠ AnyBool (ColNullable n)
          ↔ ColNullable o ≠ ColNullable n) as -> by (split; congruence).
  assert (AnyString (ColComment o) ≠ AnyString (ColComment n)
          ↔ ColComment o ≠ ColComment n) as -> by (split; congruence).
  tauto.
Qed.

Lemma assertSharedUnchanged_spec (new : gmap string SqlColumnInfo)
    (visit : list (string * SqlColumnInfo)) :
  (assertSharedUnchanged (prod_map id columnBlock <$> visit) new = Ok (Errorf mixedChangeError)
   ∧ ∃ name o n, (name, o) ∈ visit ∧ new !! name = Some n ∧ attributesDiffer o n)
  ∨ (assertSharedUnchanged (prod_map id columnBlock <$> visit) new = Ok None
     ∧ ∀ name o n, (name, o) ∈ visit → new !! name = Some n → ¬ attributesDiffer o n).
Proof.
  induction visit as [|[name o] visit IH].
  - right. split; [done|]. intros name o n Hin. by apply elem_of_nil in Hin.
  - rewrite fmap_cons. cbn [prod_map fst snd id assertSharedUnchanged].
    destruct IH as [[Hr (name' & o' & n' & Hin & Hn & Hd)]|[Hr Hall]].
    + destruct (new !! name) as [n|] eqn:En.
      * rewrite columnBlock_type. cbn [assertString mbind go_bind].
        destruct (bool_decide _ || bool_decide _ || bool_decide _) eqn:Hc.
        -- left. split; [done|]. apply differ_condition in Hc.
           exists name, o, n. split; [left | done].
        -- left. split; [done|]. exists name', o', n'. split; [by right | done].
      * left. split; [done|]. exists name', o', n'. split; [by right | done].
    + destruct (new !! name) as [n|] eqn:En.
      * rewrite columnBlock_type. cbn [assertString mbind go_bind].
        destruct (bool_decide _ || bool_decide _ || bool_decide _) eqn:Hc.
        -- left. split; [done|]. apply differ_condition in Hc.
           exists name, o, n. split; [left | done].
        -- right. split; [done|]. intros name1 o1 n1 Hin Hn1.
           apply elem_of_cons in Hin as [Heq|Hin]; [|by apply (Hall name1)].
           injection Heq as -> ->. rewrite En in Hn1. injection Hn1 as <-.
           intros Hd. apply differ_condition in Hd. congruence.
      * right. split; [done|]. intros name1 o1 n1 Hin Hn1.
        apply elem_of_cons in Hin as [Heq|Hin]; [|by apply (Hall name1)].
        injection Heq as -> ->. congruence.
Qed.

Lemma nameToColumn_lookup l n c :
  NoDup (ColName <$> l) →
  nameToColumn l !! n = Some c ↔ c ∈ l ∧ ColName c = n.
Proof.
  intros Hnd. split.
  - intros Hc. apply nameToColumn_Some in Hc. tauto.
  - intros [Hc <-]. by apply nameToColumn_NoDup.
Qed.

(** The validator returns; it fails exactly when a name recorded on both
    sides comes with differing attributes. *)
Lemma assertNoColumnMembershipAndFieldValueUpdate_spec (old new : list SqlColumnInfo) :
  (assertNoColumnMembershipAndFieldValueUpdate (columnBlock <$> old) new
     = Ok (Errorf mixedChangeError)
   ∧ ∃ name o n, nameToColumn old !! name = Some o ∧ nameToColumn new !! name = Some n
                 ∧ attributesDiffer o n)
  ∨ (assertNoColumnMembershipAndFieldValueUpdate (columnBlock <$> old) new = Ok None
     ∧ ∀ name o n, nameToColumn old !! name = Some o → nameToColumn new !! name = Some n →
                   ¬ attributesDiffer o n).
Proof.
  unfold assertNoColumnMembershipAndFieldValueUpdate.
  rewrite <- (fmap_empty columnBlock), oldColsByName_blocks.
  cbn [mbind go_bind]. fold (nameToColumn old).
  pose proof (map_range_perm _ RangeOldColsNameToMap (columnBlock <$> nameToColumn old))
    as Hperm.
  rewrite map_to_list_fmap in Hperm.
  apply Permutation_map_inv in Hperm as (visit & -> & Hvisit).
  assert (∀ name o, (name, o) ∈ visit ↔ nameToColumn old !! name = Some o) as Hin.
  { intros name o. rewrite <- Hvisit. apply elem_of_map_to_list. }
  change (map (prod_map id columnBlock) visit) with (prod_map id columnBlock <$> visit).
  destruct (assertSharedUnchanged_spec (nameToColumn new) visit)
    as [[Hr (name & o & n & Ho & Hn & Hd)]|[Hr Hall]].
  - left. split; [done|]. exists name, o, n. by rewrite <- Hin.
  - right. split; [done|]. intros name o n Ho Hn. apply (Hall name); [by apply Hin | done].
Qed.

(** C5. For column lists with unique names, the validator for differing
    column counts fails exactly when a column of the old list and a column
    of the new list have the same name and differ in normalised type,
    nullability or comment; otherwise it succeeds.  It is the validator
    that [columnChangesCustomizeDiff] runs when the counts differ. *)
Theorem mixed_change_rejected (old new : list SqlColumnInfo) :
  NoDup (ColName <$> old) → NoDup (ColName <$> new) →
  (assertNoColumnMembershipAndFieldValueUpdate (columnBlock <$> old) new
     = Ok (Errorf mixedChangeError)
   ↔ ∃ o n, o ∈ old ∧ n ∈ new ∧ ColName o = ColName n ∧ attributesDiffer o n)
  ∧ (assertNoColumnMembershipAndFieldValueUpdate (columnBlock <$> old) new = Ok None
     ↔ ¬ ∃ o n, o ∈ old ∧ n ∈ new ∧ ColName o = ColName n ∧ attributesDiffer o n)
  ∧ (length old ≠ length new →
     ∀ newTable, ColumnInfos newTable = new →
       columnChangesCustomizeDiff (columnBlock <$> old) newTable =
       assertNoColumnMembershipAndFieldValueUpdate (columnBlock <$> old) new).
Proof.
  intros Hold Hnew.
  assert ((∃ name o n, nameToColumn old !! name = Some o
                       ∧ nameToColumn new !! name = Some n ∧ attributesDiffer o n)
          ↔ ∃ o n, o ∈ old ∧ n ∈ new ∧ ColName o = ColName n ∧ attributesDiffer o n) as Hiff.
  { split.
    - intros (name & o & n & Ho & Hn & Hd).
      apply nameToColumn_lookup in Ho as [Ho <-]; [|done].
      apply nameToColumn_lookup in Hn as [Hn Heq]; [|done]. eauto 10.
    - intros (o & n & Ho & Hn & Heq & Hd). exists (ColName o), o, n.
      split; [by apply nameToColumn_lookup|]. split; [|done].
      by apply nameToColumn_lookup. }
  split; [|split].
  - destruct (assertNoColumnMembershipAndFieldValueUpdate_spec old new)
      as [[Hr Hex]|[Hr Hall]]; rewrite Hr.
    + split; [intros _; by apply Hiff | done].
    + split; [discriminate|]. intros Hex. apply Hiff in Hex as (name & o & n & Ho & Hn & Hd).
      by destruct (Hall name o n).
  - destruct (assertNoColumnMembershipAndFieldValueUpdate_spec old new)
      as [[Hr Hex]|[Hr Hall]]; rewrite Hr.
    + split; [discriminate|]. intros Hno. destruct Hno. by apply Hiff.
    + split; [|done]. intros _ Hex. apply Hiff in Hex as (name & o & n & Ho & Hn & Hd).
      by destruct (Hall name o n).
  - intros Hlen newTable <-. unfold columnChangesCustomizeDiff.
    rewrite length_fmap. by rewrite decide_False.
Qed.

End MixedChange.

(** ** The statements above at sample inputs *)

Lemma rename_only_sample :
  let oldti := sampleTable [sampleColumn "a" "int"] [] None None None in
  let ti := sampleTable [sampleColumn "b" "int"] [] None None None in
  "a" ≠ "b"
  ∧ getStatementsForColumnDiffs ti oldti [] "TABLE" =
    Ok ["ALTER TABLE `main`.`s`.`t` RENAME COLUMN `a` to `b`"].
Proof.
  intros oldti ti.
  assert ("a" ≠ "b") as Hab by (intros E; discriminate E).
  split; [exact Hab|].
  exact (proj1 (rename_only ti oldti "a" "b" "int" "" true Hab eq_refl eq_refl) [] "TABLE").
Defined.

Lemma add_remove_columns_sample :
  let oldti :=
    sampleTable [sampleColumn "a" "int"; sampleColumn "b" "int"] [] None None None in
  let ti :=
    sampleTable [sampleColumn "a" "int"; sampleColumn "c" "int"; sampleColumn "d" "int"]
      [] None None None in
  length (ColumnInfos ti) ≠ length (ColumnInfos oldti)
  ∧ ∃ dropped,
      (∀ n, n ∈ dropped ↔
              n ∈ ColName <$> ColumnInfos oldti ∧ n ∉ ColName <$> ColumnInfos ti)
      ∧ getStatementsForColumnDiffs ti oldti [] "TABLE" =
        Ok ([] ++ dropColumnStatements ti "TABLE" dropped
               ++ addColumnStatements ti oldti "TABLE").
Proof.
  intros oldti ti.
  assert (length (ColumnInfos ti) ≠ length (ColumnInfos oldti)) as Hlen
    by (intros E; discriminate E).
  split; [exact Hlen|].
  destruct (add_remove_columns ti oldti Hlen) as (dropped & _ & Hin & Hcols & _).
  exists dropped. split; [exact Hin | exact (Hcols [] "TABLE")].
Defined.

Lemma unset_lists_removed_keys_sample :
  let desired := sampleTable [] [] None (Some ∅) None in
  let previous :=
    sampleTable [] [] None (Some {["delta.minReaderVersion" := "1"]}) None in
  Properties desired ≠ Properties previous
  ∧ ∀ key, key ∈ removeProps desired previous ↔
       is_Some (entries (Properties previous) !! key)
       ∧ entries (Properties desired) !! key = None.
Proof.
  intros desired previous.
  assert (Properties desired ≠ Properties previous) as Hne.
  { apply (proj1 (bool_decide_eq_false _)). vm_compute. reflexivity. }
  split; [exact Hne|].
  exact (proj1 (proj2 (unset_lists_removed_keys desired previous Hne))).
Defined.

Lemma type_change_rejected_sample :
  let old := [sampleColumn "a" "int"] in
  let new := [sampleColumn "a" "string"] in
  length old = length new
  ∧ assertNoColumnTypeDiff (columnBlock <$> old) new = Ok (Errorf typeChangeError).
Proof.
  intros old new. split; [reflexivity|].
  apply (proj1 (type_change_rejected old new eq_refl)).
  exists 0, (sampleColumn "a" "int"), (sampleColumn "a" "string").
  split; [reflexivity|]. split; [reflexivity|].
  vm_compute. intros E. discriminate E.
Defined.

Lemma mixed_change_rejected_sample :
  let old :=
    [{| ColName := "a"; ColType := "int"; ColComment := ""; ColNullable := false |}] in
  let new :=
    [{| ColName := "a"; ColType := "bigint"; ColComment := ""; ColNullable := false |};
     sampleColumn "b" "string"] in
  NoDup (ColName <$> old) ∧ NoDup (ColName <$> new)
  ∧ assertNoColumnMembershipAndFieldValueUpdate (columnBlock <$> old) new
    = Ok (Errorf mixedChangeError).
Proof.
  intros old new.
  assert (NoDup (ColName <$> old)) as Hold by (apply (bool_decide_unpack _); vm_compute; exact I).
  assert (NoDup (ColName <$> new)) as Hnew by (apply (bool_decide_unpack _); vm_compute; exact I).
  split; [exact Hold|]. split; [exact Hnew|].
  apply (proj1 (mixed_change_rejected old new Hold Hnew)).
  exists {| ColName := "a"; ColType := "int"; ColComment := ""; ColNullable := false |},
         {| ColName := "a"; ColType := "bigint"; ColComment := ""; ColNullable := false |}.
  split; [left|]. split; [left|]. split; [reflexivity|].
  left. vm_compute. intros E. discriminate E.
Defined.

(** * Further properties *)

(** ** Escaping *)

Lemma bareQuote_escape s : ∀ afterBackslash, bareQuote afterBackslash (escape s) = false.
Proof.
  induction s as [|c s IH]; intros p; [reflexivity|].
  destruct (decide (c = "'"%char)) as [->|Hc].
  - rewrite escape_quote. cbn [bareQuote].
    rewrite (decide_False (P := "\"%char = "'"%char)) by discriminate.
    rewrite (decide_True (P := "'"%char = "'"%char)) by done.
    rewrite (bool_decide_eq_true_2 ("\"%char = "\"%char)) by done.
    cbn [negb orb]. apply IH.
  - rewrite escape_other by done. cbn [bareQuote].
    rewrite decide_False by done. cbn [orb]. apply IH.
Qed.

(** X1. In the text that [parseComment] returns every quote stands right
    after a backslash. *)
Theorem parseComment_no_bare_quote (s : string) :
  bareQuote false (parseComment s) = false.
Proof. rewrite parseComment_escape_unescape. apply bareQuote_escape. Qed.

Lemma hasQuote_head s r : hasQuote s = false → s ≠ String "'" r.
Proof.
  intros Hq ->. cbn [hasQuote] in Hq.
  by rewrite (bool_decide_eq_true_2 ("'"%char = "'"%char)) in Hq.
Qed.

(** X2. A text without a quote is returned as it is. *)
Theorem parseComment_quote_free (s : string) :
  hasQuote s = false → parseComment s = s.
Proof.
  intros Hq. rewrite parseComment_escape_unescape.
  assert (unescape s = s) as ->.
  { induction s as [|c s IH]; [reflexivity|].
    cbn [hasQuote] in Hq. apply orb_false_elim in Hq as [Hc Hs].
    rewrite unescape_other by (right; intros r; by apply hasQuote_head).
    by rewrite IH. }
  induction s as [|c s IH]; [reflexivity|].
  cbn [hasQuote] in Hq. apply orb_false_elim in Hq as [Hc Hs].
  apply bool_decide_eq_false in Hc.
  rewrite escape_other by done. by rewrite IH.
Qed.

(** ** Normalised column types *)

Lemma lower_byte_idem c : lower_byte (lower_byte c) = lower_byte c.
Proof. destruct c as [[] [] [] [] [] [] [] []]; reflexivity. Qed.

Lemma lower_byte_ascii c :
  (nat_of_ascii (lower_byte c) <? 128)%nat = (nat_of_ascii c <? 128)%nat.
Proof. destruct c as [[] [] [] [] [] [] [] []]; reflexivity. Qed.

Lemma lower_ascii_idem s : lower_ascii (lower_ascii s) = lower_ascii s.
Proof.
  induction s as [|c s IH]; [reflexivity|].
  cbn [lower_ascii]. by rewrite lower_byte_idem, IH.
Qed.

Lemma is_ascii_lower s : is_ascii (lower_ascii s) = is_ascii s.
Proof.
  induction s as [|c s IH]; [reflexivity|].
  cbn [lower_ascii is_ascii]. by rewrite lower_byte_ascii, IH.
Qed.

(** The alias table maps lower-case ASCII text to lower-case ASCII text
    that it leaves alone. *)
Lemma aliasOf_lower t :
  is_ascii t = true → lower_ascii t = t →
  is_ascii (aliasOf t) = true
  ∧ lower_ascii (aliasOf t) = aliasOf t
  ∧ aliasOf (aliasOf t) = aliasOf t.
Proof.
  intros Ha Hl. unfold aliasOf.
  repeat (case_decide; [by vm_compute|]).
  repeat (rewrite decide_False by done). done.
Qed.

Section Normalise.
Context `{GoRuntime}.

(** X3. On ASCII type text the normalisation of column types is
    idempotent and ignores the case of the letters. *)
Theorem getColumnType_normal (s : string) :
  is_ascii s = true →
  getColumnType (getColumnType s) = getColumnType s
  ∧ getColumnType (lower_ascii s) = getColumnType s.
Proof.
  intros Ha.
  assert (getColumnType s = aliasOf (lower_ascii s)) as Hs.
  { by rewrite getColumnType_aliasOf, ToLower_ascii. }
  destruct (aliasOf_lower (lower_ascii s)) as (Ha' & Hl' & Hi').
  { by rewrite is_ascii_lower. }
  { apply lower_ascii_idem. }
  split.
  - rewrite Hs, getColumnType_aliasOf, ToLower_ascii by done.
    by rewrite Hl', Hi'.
  - rewrite Hs, getColumnType_aliasOf, ToLower_ascii by (by rewrite is_ascii_lower).
    by rewrite lower_ascii_idem.
Qed.

(** ** The serialised property lists *)

Lemma foldl_appendUnmanaged_pairs l :
  foldl appendUnmanaged [] l =
  propertyPair <$> filter (fun kv : string * string => sqlTableIsManagedProperty kv.1 = false) l.
Proof. by rewrite foldl_appendUnmanaged, app_nil_l. Qed.

(** X4. Whatever the order in which the maps are visited, the
    [TBLPROPERTIES] and [OPTIONS] lists hold one ['key'='value'] entry,
    joined by commas, for each entry of the map whose key is not managed,
    and nothing else. *)
Theorem serialized_lists_hold_unmanaged_entries (ti : SqlTableInfo) :
  (∃ l, l ≡ₚ filter (fun kv : string * string => sqlTableIsManagedProperty kv.1 = false)
               (map_to_list (entries (Properties ti)))
        ∧ serializeProperties ti = Join (propertyPair <$> l) ", ")
  ∧ (∃ l, l ≡ₚ filter (fun kv : string * string => sqlTableIsManagedProperty kv.1 = false)
                 (map_to_list (entries (Options ti)))
          ∧ serializeOptions ti = Join (propertyPair <$> l) ", ").
Proof.
  split.
  - eexists. split; [|unfold serializeProperties; by rewrite foldl_appendUnmanaged_pairs].
    by rewrite (map_range_perm _ RangeProperties).
  - eexists. split; [|unfold serializeOptions; by rewrite foldl_appendUnmanaged_pairs].
    by rewrite (map_range_perm _ RangeOptions).
Qed.

End Normalise.

(** ** The shape of the create statement *)

Lemma append_nil_r (s : string) : s +:+ "" = s.
Proof. induction s as [|c s IH]; [reflexivity|]. by rewrite append_cons, IH. Qed.

Lemma Join_nosep_cons e l : Join (e :: l) "" = e +:+ Join l "".
Proof. destruct l; [by rewrite append_nil_r | reflexivity]. Qed.

Lemma Join_nosep_app l1 l2 : Join (l1 ++ l2) "" = Join l1 "" +:+ Join l2 "".
Proof.
  induction l1 as [|e l1 IH]; [reflexivity|].
  rewrite <- app_comm_cons, !Join_nosep_cons, IH. by rewrite append_assoc.
Qed.

Lemma startsWith_app head l x : startsWith head l → startsWith head (l ++ x).
Proof. intros [rest ->]. by exists (rest ++ x). Qed.

Section CreateShape.
Context `{GoRuntime}.

(** The list that [buildTableCreateStatement] joins, before the clause
    that depends on the kind. *)
Lemma create_clauses_start (ti : SqlTableInfo) (head : string) (st : list string) :
  startsWith head st →
  startsWith head
    (let statements :=
       if (0 <? length (ColumnInfos ti))%nat
       then st ++ [" (" +:+ serializeColumnInfos ti +:+ ")"] else st in
     let statements :=
       if negb (bool_decide (TableType ti = "VIEW"))
       then if decide (DataSourceFormat ti = "") then statements
            else statements ++ [newline +:+ "USING " +:+ DataSourceFormat ti]
       else statements in
     let statements :=
       if (0 <? length (Partitions ti))%nat
       then statements ++ [newline +:+ "PARTITIONED BY (" +:+ Join (Partitions ti) ", " +:+ ")"]
       else statements in
     let statements :=
       if (0 <? length (elems (ClusterKeys ti)))%nat
       then statements ++
              [newline +:+ "CLUSTER BY (" +:+ Join (elems (ClusterKeys ti)) ", " +:+ ")"]
       else statements in
     let statements :=
       if decide (Comment ti = "") then statements
       else statements ++ [newline +:+ "COMMENT '" +:+ parseComment (Comment ti) +:+ "'"] in
     let statements :=
       if (0 <? map_len (Properties ti))%nat
       then statements ++ [newline +:+ "TBLPROPERTIES (" +:+ serializeProperties ti +:+ ")"]
       else statements in
     if (0 <? map_len (Options ti))%nat
     then statements ++ [newline +:+ "OPTIONS (" +:+ serializeOptions ti +:+ ")"]
     else statements).
Proof.
  intros Hst. cbv zeta.
  repeat match goal with
         | |- startsWith _ (if ?b then _ else _) => destruct b
         | |- startsWith _ (_ ++ _) => apply startsWith_app
         end; exact Hst.
Qed.

(** X5. The create statement starts with [CREATE], the kind and the
    backtick-quoted three-part name and ends with a semicolon; for a view
    it ends with [AS], the view definition and the semicolon. *)
Theorem create_statement_shape (ti : SqlTableInfo) :
  (∃ middle,
     buildTableCreateStatement ti =
     "CREATE " +:+ (if decide (TableType ti = "EXTERNAL") then "EXTERNAL " else "") +:+
     getTableTypeString ti +:+ " " +:+ SQLFullName ti +:+ middle +:+ ";")
  ∧ (TableType ti = "VIEW" →
     ∃ middle,
       buildTableCreateStatement ti =
       "CREATE VIEW " +:+ SQLFullName ti +:+ middle +:+
       newline +:+ "AS " +:+ ViewDefinition ti +:+ ";").
Proof.
  set (head := "CREATE " +:+ (if decide (TableType ti = "EXTERNAL") then "EXTERNAL " else "")
               +:+ getTableTypeString ti +:+ " " +:+ SQLFullName ti).
  pose proof (create_clauses_start ti head [head] (ex_intro _ [] eq_refl)) as [rest Hrest].
  cbv zeta in Hrest.
  assert (∀ l, Join ((head :: rest) ++ l) "" = head +:+ Join rest "" +:+ Join l "") as Hjoin.
  { intros l. rewrite Join_nosep_app, Join_nosep_cons. by rewrite append_assoc. }
  assert (∀ x, Join [x; ";"] "" = x +:+ ";") as Hlast by reflexivity.
  split.
  - unfold buildTableCreateStatement. cbv zeta. fold head. rewrite Hrest.
    destruct (negb _).
    + destruct (decide (StorageLocation ti = "")).
      * exists (Join rest ""). rewrite Hjoin. subst head.
        rewrite !append_assoc. reflexivity.
      * exists (Join rest "" +:+ newline +:+ buildLocationStatement ti).
        rewrite <- app_assoc, Hjoin. cbn [app]. rewrite Hlast. subst head.
        rewrite !append_assoc. reflexivity.
    + exists (Join rest "" +:+ newline +:+ "AS " +:+ ViewDefinition ti).
      rewrite <- app_assoc, Hjoin. cbn [app]. rewrite Hlast. subst head.
      rewrite !append_assoc. reflexivity.
  - intros Hview. unfold buildTableCreateStatement. cbv zeta. fold head. rewrite Hrest.
    rewrite (bool_decide_eq_true_2 _ Hview). cbn [negb].
    exists (Join rest "").
    rewrite <- app_assoc, Hjoin. cbn [app]. rewrite Hlast. subst head.
    unfold getTableTypeString.
    rewrite (decide_True (P := TableType ti = "VIEW")) by done.
    rewrite (decide_False (P := TableType ti = "EXTERNAL")) by (rewrite Hview; discriminate).
    rewrite !append_assoc. reflexivity.
Qed.

End CreateShape.

(** ** What the builders read *)

Section Inputs.
Context `{GoRuntime}.

(** X6. The create statement of a view does not depend on the data source
    format, the storage location or the storage credential, that of a
    table does not depend on the view definition, and neither depends on
    the cluster, the warehouse or the owner, nor on whether an empty map
    or slice is [nil]. *)
Theorem create_statement_inputs (ti ti' : SqlTableInfo) :
  createInputsAgree ti ti' →
  (TableType ti = "VIEW" → ViewDefinition ti = ViewDefinition ti') →
  (TableType ti ≠ "VIEW" →
   DataSourceFormat ti = DataSourceFormat ti'
   ∧ StorageLocation ti = StorageLocation ti'
   ∧ StorageCredentialName ti = StorageCredentialName ti') →
  buildTableCreateStatement ti = buildTableCreateStatement ti'.
Proof.
  intros (E1 & E2 & E3 & E4 & E5 & E6 & E7 & E8 & E9 & E10) Hview Htable.
  unfold buildTableCreateStatement, serializeColumnInfos, serializeProperties,
    serializeOptions, buildLocationStatement, getTableTypeString, SQLFullName, map_len.
  rewrite <- E1, <- E2, <- E3, <- E4, <- E5, <- E6, <- E7, <- E8, <- E9, <- E10.
  destruct (decide (TableType ti = "VIEW")) as [Hv|Hv].
  - rewrite (bool_decide_eq_true_2 _ Hv), <- (Hview Hv). reflexivity.
  - destruct (Htable Hv) as (F1 & F2 & F3).
    rewrite (bool_decide_eq_false_2 _ Hv), <- F1, <- F2, <- F3. reflexivity.
Qed.

(** X7. The diff does not depend on the options, the partitions, the data
    source format, the cluster, the warehouse or the owner of either
    description, nor on the name, the kind or the storage credential of
    the previous one. *)
Theorem diff_inputs (ti ti' oldti oldti' : SqlTableInfo) :
  desiredInputsAgree ti ti' → previousInputsAgree oldti oldti' →
  diff ti oldti = diff ti' oldti'.
Proof.
  intros (E1 & E2 & E3 & E4 & E5 & E6 & E7 & E8 & E9 & E10 & E11)
         (F1 & F2 & F3 & F4 & F5 & F6).
  unfold diff, getStatementsForColumnDiffs, addOrRemoveColumnStatements,
    alterExistingColumnStatements, removeProps, serializeProperties,
    buildLocationStatement, getTableTypeString, SQLFullName.
  rewrite <- E1, <- E2, <- E3, <- E4, <- E5, <- E6, <- E7, <- E8, <- E9, <- E10, <- E11.
  rewrite <- F1, <- F2, <- F3, <- F4, <- F5, <- F6.
  assert (∀ m i rest st ty,
            addColumnsFrom ti m ty i rest st = addColumnsFrom ti' m ty i rest st) as Hadd.
  { intros m i rest. revert i. induction rest as [|c rest IH]; intros i st ty; [done|].
    cbn [addColumnsFrom]. unfold SQLFullName. rewrite <- E1, <- E2, <- E3, <- E5.
    destruct (m !! ColName c); cbn [mbind go_bind]; [apply IH|].
    destruct (i =? 0)%nat; cbn [mbind go_bind]; [apply IH|].
    destruct (index (ColumnInfos ti) (i - 1)); cbn [mbind go_bind]; [apply IH | done]. }
  assert (∀ i rest st ty,
            alterColumnsFrom ti oldti ty i rest st = alterColumnsFrom ti' oldti' ty i rest st)
    as Halter.
  { intros i rest. revert i. induction rest as [|c rest IH]; intros i st ty; [done|].
    cbn [alterColumnsFrom]. rewrite <- F1.
    destruct (index (ColumnInfos oldti) i); cbn [mbind go_bind]; [|done].
    rewrite IH. unfold alterColumnAt, SQLFullName. by rewrite <- E1, <- E2, <- E3. }
  rewrite Hadd, Halter. reflexivity.
Qed.

End Inputs.

(** ** When the diff is empty *)

Lemma alterColumnAt_nil_iff ti ty c o :
  alterColumnAt ti ty c o [] = [] ↔ sameTrackedColumn c o.
Proof.
  unfold alterColumnAt, sameTrackedColumn. split.
  - intros Hnil.
    destruct (decide (ColNullable c ≠ ColNullable o)) as [?|Hn];
      [by apply app_eq_nil in Hnil as [_ ?]|].
    destruct (decide (ColComment c ≠ ColComment o)) as [?|Hc];
      [by apply app_eq_nil in Hnil as [_ ?]|].
    destruct (decide (ColName c ≠ ColName o)) as [?|Hm];
      [by apply app_eq_nil in Hnil as [_ ?]|].
    apply dec_stable in Hn, Hc, Hm. done.
  - intros (E1 & E2 & E3).
    by rewrite !decide_False by (intros Hne; by apply Hne).
Qed.

Section EmptyDiff.
Context `{GoRuntime}.

(** The positional loop, as one step per pair of columns. *)
Lemma alterColumnsFrom_zip ti oldti ty rest : ∀ i stmts,
  (i + length rest ≤ length (ColumnInfos oldti))%nat →
  alterColumnsFrom ti oldti ty i rest stmts =
  Ok (stmts ++ concat (zip_with (fun c o => alterColumnAt ti ty c o [])
                         rest (drop i (ColumnInfos oldti)))).
Proof.
  induction rest as [|c rest IH]; intros i stmts Hlen; cbn [length alterColumnsFrom] in *.
  - by rewrite app_nil_r.
  - unfold index. destruct (ColumnInfos oldti !! i) as [o|] eqn:E;
      [|apply lookup_ge_None in E; lia].
    cbn [mbind go_bind]. rewrite IH by lia.
    rewrite (drop_S _ o i) by done. cbn [zip_with concat].
    rewrite (alterColumnAt_app _ _ _ _ stmts). by rewrite <- !app_assoc.
Qed.

Lemma alter_path_nil_iff ti ty (cols olds : list SqlColumnInfo) :
  length cols = length olds →
  concat (zip_with (fun c o => alterColumnAt ti ty c o []) cols olds) = []
  ↔ Forall2 sameTrackedColumn cols olds.
Proof.
  revert olds. induction cols as [|c cols IH]; intros [|o olds] Hlen;
    try discriminate; cbn [zip_with concat].
  - split; [constructor | done].
  - injection Hlen as Hlen. split.
    + intros Hnil. apply app_eq_nil in Hnil as [Hc Hrest].
      constructor; [by apply (alterColumnAt_nil_iff ti ty) | by apply IH].
    + intros Hall. apply Forall2_cons in Hall as [Hc Hrest].
      apply (alterColumnAt_nil_iff ti ty) in Hc. rewrite Hc.
      by apply IH.
Qed.

(** With unique names on both sides and different counts, the
    add-or-remove path has something to say. *)
Lemma add_remove_path_not_nil ti oldti stmts ty :
  NoDup (ColName <$> ColumnInfos ti) → NoDup (ColName <$> ColumnInfos oldti) →
  length (ColumnInfos ti) ≠ length (ColumnInfos oldti) →
  addOrRemoveColumnStatements ti oldti stmts ty ≠ Ok stmts.
Proof.
  intros Hnew Hold Hlen Hr. rewrite addOrRemoveColumnStatements_spec in Hr.
  injection Hr as Hr.
  match type of Hr with
  | stmts ++ ?r = stmts =>
      assert (r = []) as Hnil by (apply (app_inv_head stmts); by rewrite app_nil_r)
  end.
  clear Hr. apply app_eq_nil in Hnil as [Hdrop Hadd]. cbv zeta in Hdrop.
  apply Hlen. rewrite <- (length_fmap ColName (ColumnInfos ti)).
  rewrite <- (length_fmap ColName (ColumnInfos oldti)).
  apply Permutation_length, NoDup_Permutation; [done..|].
  intros n. split; intros Hn.
  - apply dec_stable. intros Hnot. apply nameToColumn_None in Hnot.
    apply list_elem_of_fmap in Hn as (c & -> & Hc).
    apply list_elem_of_lookup in Hc as [i Hi].
    apply fmap_nil_inv in Hadd.
    assert ((i, c) ∈ filter (fun ic : nat * SqlColumnInfo =>
               nameToColumn (ColumnInfos oldti) !! ColName ic.2 = None)
              (imap pair (ColumnInfos ti))) as Hin.
    { apply list_elem_of_filter. split; [done|].
      apply list_elem_of_lookup. exists i. by rewrite list_lookup_imap, Hi. }
    rewrite Hadd in Hin. by apply elem_of_nil in Hin.
  - apply dec_stable. intros Hnot. apply nameToColumn_None in Hnot.
    destruct (nameToColumn (ColumnInfos oldti) !! n) as [o|] eqn:Ho.
    2:{ apply nameToColumn_None in Ho. done. }
    set (removed := getWrappedColumnName <$>
           (filter (fun e : string * SqlColumnInfo =>
                      nameToColumn (ColumnInfos ti) !! e.1 = None)
              (map_range RangeOldColumns (nameToColumn (ColumnInfos oldti)))).*2) in *.
    assert (removed ≠ []) as Hne.
    { intros Hnil. apply fmap_nil_inv, fmap_nil_inv in Hnil.
      assert ((n, o) ∈ filter (fun e : string * SqlColumnInfo =>
                 nameToColumn (ColumnInfos ti) !! e.1 = None)
                (map_range RangeOldColumns (nameToColumn (ColumnInfos oldti)))) as Hin.
      { apply list_elem_of_filter. split; [done | by apply map_range_lookup]. }
      rewrite Hnil in Hin. by apply elem_of_nil in Hin. }
    destruct removed; [done|]. discriminate Hdrop.
Qed.

(** Nothing tracked differs: nothing to do. *)
Lemma diff_trackedEqual ti oldti :
  trackedEqual ti oldti → diff ti oldti = Ok ([], None).
Proof.
  intros (Hkind & Hcomment & Hprops & Hcols).
  assert (∀ stmts ty, getStatementsForColumnDiffs ti oldti stmts ty = Ok stmts) as Hnone.
  { intros stmts ty. unfold getStatementsForColumnDiffs, alterExistingColumnStatements.
    pose proof (Forall2_length _ _ _ Hcols) as Hlen.
    rewrite decide_False by (intros Hne; by apply Hne).
    rewrite alterColumnsFrom_zip by (cbn [Nat.add]; lia).
    rewrite drop_0. apply (alter_path_nil_iff ti ty) in Hcols; [|done].
    by rewrite Hcols, app_nil_r. }
  unfold diff, DeepEqual. rewrite Hnone. cbn [mbind go_bind].
  rewrite (bool_decide_eq_true_2 _ Hprops). cbn [negb].
  rewrite (decide_False (P := Comment ti ≠ Comment oldti)) by (intros Hne; by apply Hne).
  destruct (decide (TableType ti = "VIEW")).
  - by rewrite decide_False by (intros Hne; by apply Hne).
  - destruct Hkind as [Hloc Hkeys].
    rewrite (bool_decide_eq_true_2 _ Hkeys). cbn [negb].
    by rewrite decide_False by (intros Hne; by apply Hne).
Qed.

(** X8. For descriptions with unique column names, the diff is empty
    exactly when nothing that it tracks differs: the view definition of a
    view, the storage location and the cluster keys of a table, the
    comment, the property map, and position by position the names,
    comments and nullability of the columns.  A difference in column types
    alone, or in any other field, leaves it empty. *)
Theorem diff_empty_iff (ti oldti : SqlTableInfo) :
  NoDup (ColName <$> ColumnInfos ti) → NoDup (ColName <$> ColumnInfos oldti) →
  diff ti oldti = Ok ([], None) ↔ trackedEqual ti oldti.
Proof.
  intros Hnew Hold. split; [|apply diff_trackedEqual].
  intros Hdiff.
  destruct (getStatementsForColumnDiffs_total ti oldti (getTableTypeString ti))
    as [out Hout].
  unfold diff, DeepEqual in Hdiff. rewrite Hout in Hdiff. cbn [mbind go_bind] in Hdiff.
  injection Hdiff as Hdiff. apply app_eq_nil in Hdiff as [Hattrs Hcols]. subst out.
  assert (Forall2 sameTrackedColumn (ColumnInfos ti) (ColumnInfos oldti)) as Hsame.
  { specialize (Hout []). rewrite app_nil_r in Hout.
    unfold getStatementsForColumnDiffs in Hout.
    destruct (decide (length (ColumnInfos ti) ≠ length (ColumnInfos oldti))) as [Hlen|Hlen].
    - by apply add_remove_path_not_nil in Hout.
    - apply dec_stable in Hlen. unfold alterExistingColumnStatements in Hout.
      rewrite alterColumnsFrom_zip in Hout by (cbn [Nat.add]; lia).
      rewrite drop_0 in Hout. injection Hout as Hout.
      by apply (alter_path_nil_iff ti (getTableTypeString ti)). }
  destruct (bool_decide (Properties ti = Properties oldti)) eqn:Hprops; cbn [negb] in Hattrs;
    [|by apply app_eq_nil in Hattrs as [_ ?]].
  apply bool_decide_eq_true in Hprops.
  destruct (decide (Comment ti ≠ Comment oldti)) as [?|Hcomment];
    [by apply app_eq_nil in Hattrs as [_ ?]|].
  apply dec_stable in Hcomment.
  unfold trackedEqual. split; [|done].
  destruct (decide (TableType ti = "VIEW")).
  - destruct (decide (ViewDefinition ti ≠ ViewDefinition oldti)) as [?|Hv];
      [discriminate Hattrs | by apply dec_stable in Hv].
  - destruct (bool_decide (ClusterKeys ti = ClusterKeys oldti)) eqn:Hkeys;
      cbn [negb] in Hattrs; [|by apply app_eq_nil in Hattrs as [_ ?]].
    apply bool_decide_eq_true in Hkeys.
    destruct (decide (StorageLocation ti ≠ StorageLocation oldti)) as [?|Hl];
      [discriminate Hattrs | by apply dec_stable in Hl].
Qed.

End EmptyDiff.

(** ** Changes of nullability *)

Section Nullability.
Context `{GoRuntime}.

(** X9. When the columns agree position by position in name and comment,
    the column statements are one [ALTER COLUMN] per position whose
    nullability differs, in the order of the columns: [DROP NOT NULL]
    where the desired column is nullable, [SET NOT NULL] where it is not. *)
Theorem nullability_changes (ti oldti : SqlTableInfo) (stmts : list string)
    (typestring : string) :
  Forall2 (fun c o => ColName c = ColName o ∧ ColComment c = ColComment o)
    (ColumnInfos ti) (ColumnInfos oldti) →
  getStatementsForColumnDiffs ti oldti stmts typestring =
  Ok (stmts ++
      (nullabilityStatement ti typestring ∘ fst
       <$> filter (fun co : SqlColumnInfo * SqlColumnInfo =>
                     ColNullable co.1 ≠ ColNullable co.2)
             (zip (ColumnInfos ti) (ColumnInfos oldti)))).
Proof.
  intros Hsame. pose proof (Forall2_length _ _ _ Hsame) as Hlen.
  unfold getStatementsForColumnDiffs, alterExistingColumnStatements.
  rewrite decide_False by (intros Hne; by apply Hne).
  rewrite alterColumnsFrom_zip by (cbn [Nat.add]; lia).
  rewrite drop_0. do 2 f_equal. clear Hlen.
  induction Hsame as [|c o cols olds [Hname Hcomment] Hrest IH]; [done|].
  cbn [zip zip_with concat]. rewrite filter_cons. cbn [fst snd].
  change (zip_with pair cols olds) with (zip cols olds). rewrite IH.
  unfold alterColumnAt at 1.
  rewrite (decide_False (P := ColName c ≠ ColName o)) by (intros Hne; by apply Hne).
  rewrite (decide_False (P := ColComment c ≠ ColComment o)) by (intros Hne; by apply Hne).
  destruct (decide (ColNullable c ≠ ColNullable o)); [|done].
  rewrite fmap_cons. reflexivity.
Qed.

End Nullability.

(** ** Applying the statements of an update *)

Section Apply.
Context `{GoRuntime}.
Variable World : Type.
Variable applySql : SqlTableInfo → string → World → error * World.

Lemma applyAll_app ti pre rest w w1 :
  applyAll World applySql ti pre w = (None, w1) →
  applyAll World applySql ti (pre ++ rest) w = applyAll World applySql ti rest w1.
Proof.
  revert w. induction pre as [|s pre IH]; intros w Hpre; cbn [applyAll app] in *.
  - by injection Hpre as ->.
  - destruct (applySql ti s w) as [[e|] w']; [discriminate|]. by apply IH.
Qed.

(** X10. [updateTable] stops at the first statement that fails: the
    statements before it have been applied and stay applied, the error is
    the one of the failing statement, and no later statement is handed to
    the executor. *)
Theorem updateTable_stops_at_first_failure (ti oldti : SqlTableInfo)
    (pre post : list string) (statement : string) (err : string) (w w1 w2 : World) :
  diff ti oldti = Ok (pre ++ statement :: post, None) →
  applyAll World applySql ti pre w = (None, w1) →
  applySql ti statement w1 = (Some err, w2) →
  updateTable World applySql ti oldti w = Ok (Some err, w2).
Proof.
  intros Hdiff Hpre Hfail. unfold updateTable. rewrite Hdiff.
  cbn [mbind go_bind fst snd]. rewrite (applyAll_app _ _ _ _ _ Hpre).
  cbn [applyAll]. by rewrite Hfail.
Qed.

(** X11. When nothing that the diff tracks differs, [updateTable] hands
    nothing to the executor: it returns [nil] and the world is as it was. *)
Theorem updateTable_nothing_to_do (ti oldti : SqlTableInfo) (w : World) :
  trackedEqual ti oldti →
  updateTable World applySql ti oldti w = Ok (None, w).
Proof.
  intros Hsame. unfold updateTable. by rewrite (diff_trackedEqual _ _ Hsame).
Qed.

End Apply.

(** ** The planned properties *)

Lemma keepOldProperty_lookup {V} (oldProps options newProps : gmap string V) k key :
  keepOldProperty oldProps options newProps k !! key =
  if decide (k = key) then plannedProperty oldProps newProps options key
  else newProps !! key.
Proof.
  unfold keepOldProperty, plannedProperty.
  destruct (decide (k = key)) as [->|Hne].
  - destruct (newProps !! key) as [v|] eqn:Enew; [done|].
    destruct (options !! key) as [x|] eqn:Eopt, (oldProps !! key) as [v|] eqn:Eold,
      (sqlTableIsManagedProperty key || HasPrefix key "option.") eqn:Ecase;
      rewrite ?bool_decide_eq_true_2 by eauto;
      rewrite ?bool_decide_eq_false_2 by (intros [? ?]; discriminate);
      cbn [orb]; rewrite <- ?orb_assoc, ?Ecase; cbn [orb];
      rewrite ?lookup_insert_eq; done.
  - destruct (newProps !! k) as [v|] eqn:Enew; [done|].
    destruct (options !! k), (oldProps !! k),
      (sqlTableIsManagedProperty k || HasPrefix k "option.");
      rewrite ?lookup_insert_ne by done; done.
Qed.

Lemma plannedProperty_kept {V} (oldProps options newProps : gmap string V) k key :
  k ≠ key →
  plannedProperty oldProps (keepOldProperty oldProps options newProps k) options key =
  plannedProperty oldProps newProps options key.
Proof.
  intros Hne. unfold plannedProperty.
  by rewrite keepOldProperty_lookup, decide_False.
Qed.

Lemma foldl_keepOldProperty_lookup {V} (oldProps options : gmap string V) ks :
  NoDup ks → ∀ newProps key,
  foldl (keepOldProperty oldProps options) newProps ks !! key =
  if decide (key ∈ ks) then plannedProperty oldProps newProps options key
  else newProps !! key.
Proof.
  induction 1 as [|k ks Hk Hks IH]; intros newProps key; cbn [foldl].
  - by rewrite decide_False by apply not_elem_of_nil.
  - rewrite IH. destruct (decide (key ∈ ks)) as [Hin|Hnin].
    + rewrite decide_True by (by right).
      apply plannedProperty_kept. by intros ->.
    + rewrite keepOldProperty_lookup. destruct (decide (k = key)) as [->|Hne].
      * by rewrite decide_True by left.
      * rewrite decide_False; [done|].
        intros Hin. apply elem_of_cons in Hin as [?|?]; congruence.
Qed.

Section Planned.
Context `{GoRuntime}.

Lemma customizeDiffProperties_lookup {V} (oldProps newProps options : gmap string V) key :
  customizeDiffProperties oldProps newProps options !! key =
  plannedProperty oldProps newProps options key.
Proof.
  unfold customizeDiffProperties.
  rewrite foldl_keepOldProperty_lookup by apply map_range_NoDup_keys.
  destruct (decide (key ∈ (map_range RangeOldProps oldProps).*1)) as [Hin|Hnin]; [done|].
  rewrite map_range_key in Hnin. apply eq_None_not_Some in Hnin.
  unfold plannedProperty. rewrite Hnin.
  destruct (newProps !! key); [done|]. by destruct (_ || _).
Qed.

(** X12. The planned properties do not depend on the order in which the
    old ones are visited.  Every planned entry is kept; a key that the
    plan lacks gets its old value when it is also a key of the options, a
    managed key, or starts with [option.], and stays absent otherwise. *)
Theorem planned_properties (oldProps newProps options : gmap string string) (key : string) :
  customizeDiffProperties oldProps newProps options !! key =
  match newProps !! key with
  | Some v => Some v
  | None =>
      if bool_decide (is_Some (options !! key))
         || sqlTableIsManagedProperty key || HasPrefix key "option."
      then oldProps !! key
      else None
  end.
Proof. apply customizeDiffProperties_lookup. Qed.

(** X13. After [CustomizeDiff] has completed the desired properties
    against the properties of the previous description, the
    [UNSET TBLPROPERTIES] list of the diff holds exactly the previous keys
    that the plan dropped and that are neither keys of the options, nor
    managed, nor prefixed with [option.]. *)
Theorem unset_after_customize (ti oldti : SqlTableInfo)
    (newProps options : gmap string string) (key : string) :
  entries (Properties ti) =
    customizeDiffProperties (entries (Properties oldti)) newProps options →
  key ∈ removeProps ti oldti ↔
  is_Some (entries (Properties oldti) !! key)
  ∧ newProps !! key = None
  ∧ options !! key = None
  ∧ sqlTableIsManagedProperty key = false
  ∧ HasPrefix key "option." = false.
Proof.
  intros Hplanned. rewrite removeProps_elem, Hplanned, customizeDiffProperties_lookup.
  unfold plannedProperty. split.
  - intros [[v Hold] Hnone]. rewrite Hold in Hnone.
    destruct (newProps !! key); [discriminate|].
    destruct (bool_decide (is_Some (options !! key))) eqn:Eopt; [discriminate|].
    destruct (sqlTableIsManagedProperty key); [discriminate|].
    destruct (HasPrefix key "option."); [discriminate|].
    apply bool_decide_eq_false in Eopt. apply eq_None_not_Some in Eopt. eauto 10.
  - intros (Hold & -> & Hopt & -> & ->). split; [done|].
    rewrite bool_decide_eq_false_2; [done|]. rewrite Hopt. by intros [? ?].
Qed.

(** ** The validators on well-formed state *)

(** X14. On the blocks that the state holds for columns,
    [columnChangesCustomizeDiff] never panics: it returns [nil] or one of
    its two errors, whatever the two column lists are. *)
Theorem columnChangesCustomizeDiff_returns (old : list SqlColumnInfo)
    (newTable : SqlTableInfo) :
  columnChangesCustomizeDiff (columnBlock <$> old) newTable = Ok None
  ∨ columnChangesCustomizeDiff (columnBlock <$> old) newTable = Ok (Errorf typeChangeError)
  ∨ columnChangesCustomizeDiff (columnBlock <$> old) newTable = Ok (Errorf mixedChangeError).
Proof.
  unfold columnChangesCustomizeDiff. rewrite length_fmap. case_decide as Hlen.
  - unfold assertNoColumnTypeDiff.
    destruct (assertNoColumnTypeDiffFrom_spec old (ColumnInfos newTable) 0)
      as [[-> _]|[-> _]]; [cbn [Nat.add]; lia | by right; left | by left].
  - destruct (assertNoColumnMembershipAndFieldValueUpdate_spec old (ColumnInfos newTable))
      as [[-> _]|[-> _]]; [by right; right | by left].
Qed.

Lemma assertNoColumnTypeDiffFrom_short (old new : list SqlColumnInfo) : ∀ i,
  (i ≤ length new)%nat → (length new < i + length old)%nat →
  (∀ j o n, old !! j = Some o → new !! (i + j)%nat = Some n →
            getColumnType (ColType o) = getColumnType (ColType n)) →
  assertNoColumnTypeDiffFrom i (columnBlock <$> old) new = Panic "index out of range".
Proof.
  induction old as [|o old IH]; intros i Hi Hlen Hsame; cbn [length] in Hlen.
  - lia.
  - rewrite fmap_cons. cbn [assertNoColumnTypeDiffFrom].
    rewrite columnBlock_type. cbn [assertString mbind go_bind]. unfold index.
    destruct (new !! i) as [n|] eqn:En; [|done].
    cbn [mbind go_bind].
    rewrite decide_False.
    2:{ intros Hne. apply Hne, (Hsame 0); [done | by rewrite Nat.add_0_r]. }
    apply IH.
    + apply lookup_lt_Some in En. lia.
    + lia.
    + intros j o' n' Ho Hn. apply (Hsame (S j)); [done|].
      by rewrite Nat.add_succ_r.
Qed.

(** X15. Called on its own with more old columns than new ones,
    [assertNoColumnTypeDiff] runs off the end of the new list and panics,
    unless a type differs before that; [columnChangesCustomizeDiff] only
    calls it with equal counts. *)
Theorem assertNoColumnTypeDiff_short_new (old new : list SqlColumnInfo) :
  (length new < length old)%nat →
  (∀ i o n, old !! i = Some o → new !! i = Some n →
            getColumnType (ColType o) = getColumnType (ColType n)) →
  assertNoColumnTypeDiff (columnBlock <$> old) new = Panic "index out of range".
Proof.
  intros Hlen Hsame.
  apply assertNoColumnTypeDiffFrom_short; [lia | cbn [Nat.add]; lia | done].
Qed.

End Planned.

(** ** The further statements at sample inputs *)

Lemma parseComment_quote_free_sample :
  hasQuote "plain comment" = false ∧ parseComment "plain comment" = "plain comment".
Proof.
  split; [reflexivity|]. exact (parseComment_quote_free "plain comment" eq_refl).
Defined.

Lemma getColumnType_normal_sample :
  is_ascii "Decimal" = true
  ∧ getColumnType (getColumnType "Decimal") = getColumnType "Decimal"
  ∧ getColumnType (lower_ascii "Decimal") = getColumnType "Decimal".
Proof.
  split; [reflexivity|]. exact (getColumnType_normal "Decimal" eq_refl).
Defined.

Lemma create_statement_shape_sample :
  TableType (sampleView "" "" "SELECT 1") = "VIEW"
  ∧ ∃ middle,
      buildTableCreateStatement (sampleView "" "" "SELECT 1") =
      "CREATE VIEW " +:+ SQLFullName (sampleView "" "" "SELECT 1") +:+ middle +:+
      newline +:+ "AS " +:+ ViewDefinition (sampleView "" "" "SELECT 1") +:+ ";".
Proof.
  split; [reflexivity|].
  exact (proj2 (create_statement_shape (sampleView "" "" "SELECT 1")) eq_refl).
Defined.

Lemma create_statement_inputs_sample :
  createInputsAgree (sampleView "" "" "SELECT 1") (sampleView "DELTA" "s3://bucket/t" "SELECT 1")
  ∧ buildTableCreateStatement (sampleView "" "" "SELECT 1") =
    buildTableCreateStatement (sampleView "DELTA" "s3://bucket/t" "SELECT 1").
Proof.
  assert (createInputsAgree (sampleView "" "" "SELECT 1")
            (sampleView "DELTA" "s3://bucket/t" "SELECT 1")) as Hagree
    by (repeat split; reflexivity).
  split; [exact Hagree|].
  apply (create_statement_inputs _ _ Hagree).
  - intros _. reflexivity.
  - intros Hne. exfalso. apply Hne. reflexivity.
Defined.

Lemma diff_inputs_sample :
  let ti := sampleTable [sampleColumn "b" "int"] [] None None None in
  let ti' :=
    sampleTable [sampleColumn "b" "int"] ["b"] None None (Some {["header" := "true"]}) in
  let oldti := sampleTable [sampleColumn "a" "int"] [] None None None in
  let oldti' :=
    sampleTable [sampleColumn "a" "int"] ["a"] None None (Some {["header" := "false"]}) in
  desiredInputsAgree ti ti' ∧ previousInputsAgree oldti oldti'
  ∧ diff ti oldti = diff ti' oldti'.
Proof.
  intros ti ti' oldti oldti'.
  assert (desiredInputsAgree ti ti') as Hd by (repeat split; reflexivity).
  assert (previousInputsAgree oldti oldti') as Hp by (repeat split; reflexivity).
  split; [exact Hd|]. split; [exact Hp|].
  exact (diff_inputs ti ti' oldti oldti' Hd Hp).
Defined.

Lemma diff_empty_iff_sample :
  let ti := sampleTable [sampleColumn "a" "bigint"] [] None None None in
  let oldti := sampleTable [sampleColumn "a" "int"] [] None None None in
  NoDup (ColName <$> ColumnInfos ti) ∧ NoDup (ColName <$> ColumnInfos oldti)
  ∧ (diff ti oldti = Ok ([], None) ↔ trackedEqual ti oldti).
Proof.
  intros ti oldti.
  assert (NoDup (ColName <$> ColumnInfos ti)) as Hnew
    by (apply (bool_decide_unpack _); vm_compute; exact I).
  assert (NoDup (ColName <$> ColumnInfos oldti)) as Hold
    by (apply (bool_decide_unpack _); vm_compute; exact I).
  split; [exact Hnew|]. split; [exact Hold|].
  exact (diff_empty_iff ti oldti Hnew Hold).
Defined.

Lemma nullability_changes_sample :
  let required :=
    {| ColName := "a"; ColType := "int"; ColComment := ""; ColNullable := false |} in
  let ti := sampleTable [required] [] None None None in
  let oldti := sampleTable [sampleColumn "a" "int"] [] None None None in
  Forall2 (fun c o => ColName c = ColName o ∧ ColComment c = ColComment o)
    (ColumnInfos ti) (ColumnInfos oldti)
  ∧ getStatementsForColumnDiffs ti oldti [] "TABLE" =
    Ok ["ALTER TABLE `main`.`s`.`t` ALTER COLUMN `a` SET NOT NULL"].
Proof.
  intros required ti oldti.
  assert (Forall2 (fun c o => ColName c = ColName o ∧ ColComment c = ColComment o)
            (ColumnInfos ti) (ColumnInfos oldti)) as Hsame
    by (repeat constructor).
  split; [exact Hsame|].
  exact (nullability_changes ti oldti [] "TABLE" Hsame).
Defined.

Lemma updateTable_stops_at_first_failure_sample :
  let ti := sampleExternalTable "s3://bucket/new" "new" [sampleColumn "b" "int"] in
  let oldti := sampleExternalTable "s3://bucket/old" "old" [sampleColumn "a" "int"] in
  let relocate := "ALTER TABLE `main`.`s`.`t` SET LOCATION 's3://bucket/new'" in
  let comment := "COMMENT ON TABLE `main`.`s`.`t` IS 'new'" in
  let rename := "ALTER TABLE `main`.`s`.`t` RENAME COLUMN `a` to `b`" in
  diff ti oldti = Ok ([relocate] ++ comment :: [rename], None)
  ∧ updateTable (list string) (loggingExecutor comment) ti oldti [] =
    Ok (Errorf ("cannot execute " +:+ comment), [relocate; comment]).
Proof.
  intros ti oldti relocate comment rename.
  assert (diff ti oldti = Ok ([relocate] ++ comment :: [rename], None)) as Hdiff
    by (vm_compute; reflexivity).
  split; [exact Hdiff|].
  exact (updateTable_stops_at_first_failure (list string) (loggingExecutor comment)
           ti oldti [relocate] [rename] comment ("cannot execute " +:+ comment)
           [] [relocate] [relocate; comment] Hdiff eq_refl eq_refl).
Defined.

Lemma updateTable_nothing_to_do_sample :
  let ti := sampleTable [sampleColumn "a" "bigint"] [] None None None in
  let oldti := sampleTable [sampleColumn "a" "int"] [] None None None in
  trackedEqual ti oldti
  ∧ updateTable (list string) (loggingExecutor "") ti oldti [] = Ok (None, []).
Proof.
  intros ti oldti.
  assert (trackedEqual ti oldti) as Hsame.
  { split; [split; reflexivity|]. split; [reflexivity|]. split; [reflexivity|].
    repeat constructor. }
  split; [exact Hsame|].
  exact (updateTable_nothing_to_do (list string) (loggingExecutor "") ti oldti [] Hsame).
Defined.

Lemma unset_after_customize_sample :
  let old : gmap string string := {["delta.minReaderVersion" := "1"; "team" := "data"]} in
  let oldti := sampleTable [] [] None (Some old) None in
  let ti := sampleTable [] [] None (Some (customizeDiffProperties old ∅ ∅)) None in
  entries (Properties ti) = customizeDiffProperties (entries (Properties oldti)) ∅ ∅
  ∧ ("team" ∈ removeProps ti oldti ↔
     is_Some (entries (Properties oldti) !! "team")
     ∧ (∅ : gmap string string) !! "team" = None
     ∧ (∅ : gmap string string) !! "team" = None
     ∧ sqlTableIsManagedProperty "team" = false
     ∧ HasPrefix "team" "option." = false).
Proof.
  intros old oldti ti. split; [reflexivity|].
  exact (unset_after_customize ti oldti ∅ ∅ "team" eq_refl).
Defined.

Lemma assertNoColumnTypeDiff_short_new_sample :
  let old := [sampleColumn "a" "int"; sampleColumn "b" "int"] in
  let new := [sampleColumn "a" "int"] in
  (length new < length old)%nat
  ∧ assertNoColumnTypeDiff (columnBlock <$> old) new = Panic "index out of range".
Proof.
  intros old new.
  assert (length new < length old)%nat as Hlen by (apply (bool_decide_unpack _); exact I).
  split; [exact Hlen|].
  apply (assertNoColumnTypeDiff_short_new old new Hlen).
  intros [|i] o n Ho Hn.
  - injection Ho as <-. injection Hn as <-. reflexivity.
  - discriminate Hn.
Defined.
